(** * seed_patents.py: the harvesting-and-load pipeline

    A shallow embedding of [src/data-seeding/seed_patents.py].

    - Python values that the script handles all come out of JSON documents
      (API responses) or are built from them, so one type [value] carries
      them: [None], [bool], [int], [float], [str], [list], [dict].
    - Exceptions are explicit: pure code returns a [result], code that calls
      the network or the database runs in the monad [M] over a [state] that
      holds the connection and a trace of the calls made.
    - What the outside world answers (HTTP replies, database faults) is read
      from an environment record [env], call by call. *)

From Stdlib Require Import ZArith String Ascii List Bool Lia.
From Stdlib Require Import Floats.SpecFloat.
From stdpp Require Import gmap strings list.
Import ListNotations.

Local Open Scope string_scope.
Local Open Scope Z_scope.
Local Open Scope list_scope.

(* ===================================================================== *)
(** ** Python values *)
(* ===================================================================== *)

(** A [dict] keeps its keys in insertion order, each key once; it is kept as
    an association list and read with [assoc], which takes the first
    binding of a key.  A [str] is a Rocq [string]: one [ascii] per code
    point (code points below 256). *)
#[local] Set Warnings "-register-all".
Inductive value : Type :=
| VNone
| VBool (b : bool)
| VInt (z : Z)
| VFloat (f : spec_float)
| VStr (s : string)
| VList (l : list value)
| VDict (kv : list (string * value)).
#[local] Set Warnings "register-all".

(** The exception classes that matter to the script's [try] blocks.
    [ConnectionError], [Timeout], [HTTPError] and [JSONDecodeError] are the
    classes of [requests.exceptions], all subclasses of [RequestException];
    [DatabaseError] stands for [psycopg2.Error]; [SystemExit] is not an
    [Exception]. *)
Inductive exn : Type :=
| ConnectionError
| Timeout
| HTTPError
| JSONDecodeError
| AttributeError
| TypeError
| KeyError
| IndexError
| ValueError
| DatabaseError
| SystemExit (code : Z).

Definition is_RequestException (e : exn) : bool :=
  match e with
  | ConnectionError | Timeout | HTTPError | JSONDecodeError => true
  | _ => false
  end.

Definition is_Exception (e : exn) : bool :=
  match e with
  | SystemExit _ => false
  | _ => true
  end.

Inductive result (A : Type) : Type :=
| Ok (a : A)
| Raise (e : exn).
Arguments Ok {A} a.
Arguments Raise {A} e.

Definition rbind {A B} (r : result A) (k : A -> result B) : result B :=
  match r with
  | Ok a => k a
  | Raise e => Raise e
  end.

Declare Scope result_scope.
Delimit Scope result_scope with result.
Notation "x <- c ;; k" := (rbind c (fun x => k))
  (at level 100, c at next level, right associativity) : result_scope.

(** [for x in xs: ...] collecting results, stopping at the first exception. *)
Fixpoint rmap {A B} (f : A -> result B) (xs : list A) : result (list B) :=
  match xs with
  | [] => Ok []
  | x :: xs' =>
      (y <- f x ;;
       ys <- rmap f xs' ;;
       Ok (y :: ys))%result
  end.

(** Truth value of an object ([if x], [not x], [x or y]). *)
Definition truthy (v : value) : bool :=
  match v with
  | VNone => false
  | VBool b => b
  | VInt z => negb (z =? 0)
  | VFloat (S754_zero _) => false
  | VFloat _ => true
  | VStr s => negb (String.eqb s "")
  | VList l => match l with [] => false | _ => true end
  | VDict kv => match kv with [] => false | _ => true end
  end.

Fixpoint assoc (k : string) (kv : list (string * value)) : option value :=
  match kv with
  | [] => None
  | (k', v) :: kv' => if String.eqb k k' then Some v else assoc k kv'
  end.

(** [d.get(k, default)]: only a dict has the method. *)
Definition dict_get (d : value) (k : string) (default : value) : result value :=
  match d with
  | VDict kv => Ok (match assoc k kv with Some v => v | None => default end)
  | _ => Raise AttributeError
  end.

(** [x[0]]. *)
Definition subscript0 (x : value) : result value :=
  match x with
  | VList (v :: _) => Ok v
  | VList [] => Raise IndexError
  | VStr (String c _) => Ok (VStr (String c ""))
  | VStr "" => Raise IndexError
  | VDict _ => Raise KeyError
  | _ => Raise TypeError
  end.

Fixpoint chars (s : string) : list value :=
  match s with
  | "" => []
  | String c s' => VStr (String c "") :: chars s'
  end.

(** The elements a [for] loop or a comprehension runs over. *)
Definition iterate (x : value) : result (list value) :=
  match x with
  | VList l => Ok l
  | VStr s => Ok (chars s)
  | VDict kv => Ok (map (fun p => VStr (fst p)) kv)
  | _ => Raise TypeError
  end.

(** [len(x)]. *)
Definition len (x : value) : result Z :=
  match x with
  | VList l => Ok (Z.of_nat (length l))
  | VStr s => Ok (Z.of_nat (String.length s))
  | VDict kv => Ok (Z.of_nat (length kv))
  | _ => Raise TypeError
  end.

(** [x[:60]] is evaluated for a progress line; only whether it raises
    matters.  (On a dict it is a TypeError up to Python 3.11 and a KeyError
    from 3.12.) *)
Definition slice_check (x : value) : result unit :=
  match x with
  | VStr _ | VList _ => Ok tt
  | _ => Raise TypeError
  end.

(** [str.isspace] on one code point below 256. *)
Definition is_space (c : ascii) : bool :=
  let n := nat_of_ascii c in
  ((9 <=? n)%nat && (n <=? 13)%nat) || ((28 <=? n)%nat && (n <=? 32)%nat)
  || (n =? 133)%nat || (n =? 160)%nat.

Fixpoint lstrip (s : string) : string :=
  match s with
  | "" => ""
  | String c s' => if is_space c then lstrip s' else s
  end.

Fixpoint rstrip (s : string) : string :=
  match s with
  | "" => ""
  | String c s' =>
      match rstrip s' with
      | "" => if is_space c then "" else String c ""
      | r => String c r
      end
  end.

(** [s.strip()]. *)
Definition strip (s : string) : string := rstrip (lstrip s).

(** A row of table [patents], and a parameter mapping: column name to
    value.  The table is keyed by [patent_id]. *)
Abbreviation row := (gmap string value).
Abbreviation table := (gmap string (gmap string value)).

(* ===================================================================== *)
(** ** The outside world: requests, replies, the store *)
(* ===================================================================== *)

(** [requests.get(url, params=..., headers=..., timeout=...)].  A parameter
    that the script passes through [json.dumps] is kept as the value it
    serialises. *)
Record request : Type := {
  url : string;
  params : list (string * value);
  headers : list (string * string);
  timeout : Z
}.

(** A [requests.Response]: its status code and what [.json()] gives. *)
Record response : Type := {
  status_code : Z;
  resp_json : result value
}.

(** Calls that leave the process, in the order they are made. *)
Inductive event : Type :=
| Requested (r : request)
| Executed (parameters : row)
| Commit
| Rollback
| Closed
| Printed_total (n : Z).

(** The environment answers each call from what has happened so far. *)
Record env : Type := {
  requests_get : list event -> request -> result response;
  execute_fault : list event -> row -> option exn;
  commit_fault : list event -> option exn;
  rollback_fault : list event -> option exn;
  connect_fault : option exn
}.

(** The connection: the committed contents of the table, the contents as
    seen by the open transaction, and the trace of calls. *)
Record state : Type := {
  committed : table;
  working : table;
  trace : list event
}.

Definition M (A : Type) : Type := state -> result A * state.

Definition ret {A} (a : A) : M A := fun st => (Ok a, st).
Definition raise {A} (e : exn) : M A := fun st => (Raise e, st).
Definition lift {A} (r : result A) : M A := fun st => (r, st).

Definition bind {A B} (m : M A) (k : A -> M B) : M B :=
  fun st =>
    match m st with
    | (Ok a, st') => k a st'
    | (Raise e, st') => (Raise e, st')
    end.

Declare Scope M_scope.
Delimit Scope M_scope with M.
Notation "x <- c ;; k" := (bind c (fun x => k))
  (at level 100, c at next level, right associativity) : M_scope.

(** [try: body except C: handler], [catches] telling the instances of [C]. *)
Definition try_except {A} (body : M A) (catches : exn -> bool)
    (handler : exn -> M A) : M A :=
  fun st =>
    match body st with
    | (Ok a, st') => (Ok a, st')
    | (Raise e, st') => if catches e then handler e st' else (Raise e, st')
    end.

Definition get_trace : M (list event) := fun st => (Ok (trace st), st).

Definition emit (e : event) : M unit :=
  fun st =>
    (Ok tt, {| committed := committed st; working := working st;
               trace := trace st ++ [e] |}).

Definition set_working (f : table -> table) : M unit :=
  fun st =>
    (Ok tt, {| committed := committed st; working := f (working st);
               trace := trace st |}).

Definition set_committed (f : table -> table) : M unit :=
  fun st =>
    (Ok tt, {| committed := f (committed st); working := working st;
               trace := trace st |}).

(** Module-level configuration read from [config.json] and [.env]. *)
Record config : Type := {
  API_BASE_URL : string;
  RATE_LIMIT : Z;
  MIN_DATE : value;
  API_KEY : string
}.

Record topic : Type := {
  name : string;
  query : string;
  max_patents : Z
}.

Section Pipeline.

(** [str(v)] for a value that is neither a [str], [None] nor a [bool]
    (numbers, lists, dicts): a builtin the script reaches only through
    f-strings. *)
Variable py_repr : value -> string.

(** What [f"{v}"] puts in the string. *)
Definition format (v : value) : string :=
  match v with
  | VStr s => s
  | VNone => "None"
  | VBool true => "True"
  | VBool false => "False"
  | _ => py_repr v
  end.

(* ===================================================================== *)
(** ** Metadata normalizer: [extract_patent_metadata] *)
(* ===================================================================== *)

(** The dict that [extract_patent_metadata] returns has a fixed set of keys;
    it is a finite map from key to value. *)
Definition inventor_name (inv : value) : result value :=
  (first <- dict_get inv "inventor_name_first" (VStr "") ;;
   last <- dict_get inv "inventor_name_last" (VStr "") ;;
   Ok (VStr (strip (format first +:+ " " +:+ format last))))%result.

Definition cpc_group (cpc : value) : result (list value) :=
  (g <- dict_get cpc "cpc_group_id" VNone ;;
   Ok (if truthy g then [g] else []))%result.

Definition extract_patent_metadata (patent : value)
  : result (gmap string value) :=
  (assignees <- dict_get patent "assignees" (VList []) ;;
   first_assignee <-
     (if truthy assignees then subscript0 assignees else Ok (VDict [])) ;;
   cpc_current <- dict_get patent "cpc_current" (VList []) ;;
   cpcs <- iterate cpc_current ;;
   cpc_groups <- rmap cpc_group cpcs ;;
   wipo_fields <- dict_get patent "wipo" (VList []) ;;
   wipo_field_id <-
     (if truthy wipo_fields
      then (w <- subscript0 wipo_fields ;; dict_get w "wipo_field_id" VNone)
      else Ok VNone) ;;
   inventors <- dict_get patent "inventors" (VList []) ;;
   invs <- iterate inventors ;;
   inventor_names <- rmap inventor_name invs ;;
   patent_id <- dict_get patent "patent_id" VNone ;;
   patent_title <- dict_get patent "patent_title" VNone ;;
   patent_date <- dict_get patent "patent_date" VNone ;;
   assignee_organization <- dict_get first_assignee "assignee_organization" VNone ;;
   assignee_country <- dict_get first_assignee "assignee_country" VNone ;;
   assignee_type <- dict_get first_assignee "assignee_type" VNone ;;
   inventor_count <- len inventors ;;
   Ok (<["patent_id" := patent_id]>
       (<["patent_title" := patent_title]>
       (<["patent_date" := patent_date]>
       (<["assignee_organization" := assignee_organization]>
       (<["assignee_country" := assignee_country]>
       (<["assignee_type" := assignee_type]>
       (<["cpc_groups" := VList (concat cpc_groups)]>
       (<["wipo_field_id" := wipo_field_id]>
       (<["inventor_count" := VInt inventor_count]>
       (<["inventor_names" := VList inventor_names]>
       (<["raw_data" := patent]> (∅ : gmap string value)))))))))))))%result.

Variable cfg : config.
Variable E : env.

(* ===================================================================== *)
(** ** API client *)
(* ===================================================================== *)

(** [response.raise_for_status()]. *)
Definition raise_for_status (r : response) : result unit :=
  if (400 <=? status_code r) && (status_code r <? 600)
  then Raise HTTPError else Ok tt.

(** [rate_limited_request].  The decorators [sleep_and_retry] and [limits]
    of package [ratelimit] come before the body; they pace the call and are
    not part of the source. *)
Definition rate_limited_request (url : string) (params : list (string * value))
  : M response :=
  (let req := {| url := url; params := params;
                 headers := [("X-Api-Key", API_KEY cfg)]; timeout := 30 |} in
   tr <- get_trace ;;
   _ <- emit (Requested req) ;;
   response <- lift (requests_get E tr req) ;;
   _ <- lift (raise_for_status response) ;;
   ret response)%M.

Definition search_patents (query : string) (max_results : Z) : M value :=
  let api_query :=
    VDict [("_and",
            VList [VDict [("_text_phrase", VDict [("patent_title", VStr query)])];
                   VDict [("_gte", VDict [("patent_date", MIN_DATE cfg)])]])] in
  let fields :=
    VList [VStr "patent_id"; VStr "patent_title"; VStr "patent_date";
           VStr "assignees"; VStr "cpc_current"; VStr "inventors";
           VStr "wipo"] in
  let options :=
    VDict [("size", VInt (Z.min max_results 1000)); ("page", VInt 1)] in
  let url := API_BASE_URL cfg +:+ "/patent/" in
  let params := [("q", api_query); ("f", fields); ("o", options)] in
  try_except
    (response <- rate_limited_request url params ;;
     data <- lift (resp_json response) ;;
     err <- lift (dict_get data "error" (VBool true)) ;;
     if truthy err then ret (VList [])
     else
       (patents <- lift (dict_get data "patents" (VList [])) ;;
        total_hits <- lift (dict_get data "total_hits" (VInt 0)) ;;
        _ <- lift (len patents) ;;
        ret patents))%M
    is_RequestException
    (fun _ => ret (VList [])).

(** [d[k]] on a dict. *)
Definition getitem (d : value) (k : string) : result value :=
  match d with
  | VDict kv => match assoc k kv with Some v => Ok v | None => Raise KeyError end
  | _ => Raise TypeError
  end.

Definition fetch_patent_summary (patent_id : value) : M value :=
  let url := API_BASE_URL cfg +:+ "/g_brf_sum_text/" in
  let params := [("q", VDict [("patent_id", patent_id)])] in
  try_except
    (response <- rate_limited_request url params ;;
     data <- lift (resp_json response) ;;
     err <- lift (dict_get data "error" (VBool true)) ;;
     if truthy err then ret VNone
     else
       (texts <- lift (dict_get data "g_brf_sum_texts" VNone) ;;
        if negb (truthy texts) then ret VNone
        else
          (texts' <- lift (getitem data "g_brf_sum_texts") ;;
           first <- lift (subscript0 texts') ;;
           summary_text <- lift (dict_get first "summary_text" VNone) ;;
           ret summary_text)))%M
    is_RequestException
    (fun _ => ret VNone).

(* ===================================================================== *)
(** ** Storage upserter: [insert_patent] *)
(* ===================================================================== *)

(** The columns named by the INSERT statement, which are also its named
    parameters [%(column)s]. *)
Definition columns : list string :=
  ["patent_id"; "patent_title"; "patent_date"; "summary_text";
   "assignee_organization"; "assignee_country"; "assignee_type";
   "cpc_groups"; "wipo_field_id"; "inventor_count"; "inventor_names";
   "raw_data"; "search_topic"].

(** [cursor.execute(sql, mapping)] takes the named parameters out of the
    mapping, a [KeyError] if one is missing; other keys are not read. *)
Definition bind_parameters (parameters : row) : result row :=
  if forallb (fun c => bool_decide (is_Some (parameters !! c))) columns
  then Ok (filter (fun kv => kv.1 ∈ columns) parameters)
  else Raise KeyError.

(** [SET c = EXCLUDED.c]: column [c] of the stored row takes the value
    proposed for insertion. *)
Definition set_excluded (c : string) (excluded stored : row) : row :=
  <[c := default VNone (excluded !! c)]> stored.

(** The statement of [insert_patent] on a table keyed by [patent_id]:
<<
  INSERT INTO patents (...) VALUES (...)
  ON CONFLICT (patent_id) DO UPDATE SET
      summary_text = EXCLUDED.summary_text,
      search_topic = EXCLUDED.search_topic
>> *)
Definition upsert (id : string) (new : row) (t : table) : table :=
  match t !! id with
  | None => <[id := new]> t
  | Some stored =>
      <[id := set_excluded "search_topic" new
                (set_excluded "summary_text" new stored)]> t
  end.

(** Modelled from the spec: the declaration of table [patents] is not in the
    source.  The spec (3, 6) has one table keyed by the record identifier, a
    string; a statement whose [patent_id] is not a string is refused by the
    store. *)
Definition primary_key (r : row) : result string :=
  match r !! "patent_id" with
  | Some (VStr id) => Ok id
  | _ => Raise DatabaseError
  end.

(** [cursor.execute(sql, patent_data)] inside the open transaction. *)
Definition execute (patent_data : row) : M unit :=
  (new <- lift (bind_parameters patent_data) ;;
   tr <- get_trace ;;
   _ <- emit (Executed new) ;;
   match execute_fault E tr new with
   | Some e => raise e
   | None =>
       id <- lift (primary_key new) ;;
       set_working (upsert id new)
   end)%M.

(** [conn.commit()]. *)
Definition commit : M unit :=
  (tr <- get_trace ;;
   _ <- emit Commit ;;
   match commit_fault E tr with
   | Some e => raise e
   | None => fun st => set_committed (fun _ => working st) st
   end)%M.

(** [conn.rollback()]. *)
Definition rollback : M unit :=
  (tr <- get_trace ;;
   _ <- emit Rollback ;;
   match rollback_fault E tr with
   | Some e => raise e
   | None => fun st => set_working (fun _ => committed st) st
   end)%M.

(** [d[k]] on the parameter mapping. *)
Definition lookup_key (d : row) (k : string) : result value :=
  match d !! k with
  | Some v => Ok v
  | None => Raise KeyError
  end.

(** [insert_patent(cursor, patent_data, search_topic)].  [Json(x)] marks [x]
    for storage as a JSON document and keeps its content. *)
Definition insert_patent (patent_data : row) (search_topic : string) : M unit :=
  (cpc_groups <- lift (lookup_key patent_data "cpc_groups") ;;
   let patent_data := <["cpc_groups" := cpc_groups]> patent_data in
   inventor_names <- lift (lookup_key patent_data "inventor_names") ;;
   let patent_data := <["inventor_names" := inventor_names]> patent_data in
   raw_data <- lift (lookup_key patent_data "raw_data") ;;
   let patent_data := <["raw_data" := raw_data]> patent_data in
   let patent_data := <["search_topic" := VStr search_topic]> patent_data in
   execute patent_data)%M.

(* ===================================================================== *)
(** ** Topic processor: [process_topic] *)
(* ===================================================================== *)

(** The body of the [for] loop of [process_topic] for one patent; the
    value is the count after it. *)
Definition process_patent (topic_name : string) (inserted_count : Z)
    (patent : value) : M Z :=
  (patent_id <- lift (dict_get patent "patent_id" VNone) ;;
   patent_title <- lift (dict_get patent "patent_title" (VStr "No title")) ;;
   _ <- lift (slice_check patent_title) ;;
   patent_data <- lift (extract_patent_metadata patent) ;;
   summary_text <- fetch_patent_summary patent_id ;;
   let patent_data := <["summary_text" := summary_text]> patent_data in
   _ <- (if truthy summary_text
         then (_ <- lift (len summary_text) ;; ret tt)
         else ret tt) ;;
   try_except
     (_ <- insert_patent patent_data topic_name ;;
      _ <- commit ;;
      ret (inserted_count + 1))
     is_Exception
     (fun _ => _ <- rollback ;; ret inserted_count))%M.

Fixpoint for_each {A B} (body : B -> A -> M B) (xs : list A) (acc : B) : M B :=
  match xs with
  | [] => ret acc
  | x :: xs' => (acc' <- body acc x ;; for_each body xs' acc')%M
  end.

(** [process_topic(topic_config, conn)].  The cursor is an object of the
    client; opening and closing it makes no call. *)
Definition process_topic (topic_config : topic) : M Z :=
  (let topic_name := name topic_config in
   let query := query topic_config in
   let max_patents := max_patents topic_config in
   patents <- search_patents query max_patents ;;
   if negb (truthy patents) then ret 0
   else
     (items <- lift (iterate patents) ;;
      inserted_count <- for_each (process_patent topic_name) items 0 ;;
      ret inserted_count))%M.

(* ===================================================================== *)
(** ** Run orchestrator: [main] *)
(* ===================================================================== *)

(** [get_db_connection()] under [try ... except Exception: sys.exit(1)]; a
    new connection has no transaction open. *)
Definition connect : M unit :=
  match connect_fault E with
  | Some e => if is_Exception e then raise (SystemExit 1) else raise e
  | None => fun st => set_working (fun _ => committed st) st
  end.

(** The loop of [main] over [config["search_topics"]]. *)
Definition process_topics (topics : list topic) : M Z :=
  for_each (fun total_inserted topic =>
              (inserted <- process_topic topic ;;
               ret (total_inserted + inserted))%M)
           topics 0.

(** [main()].  The grand total is what the script prints last; [main] itself
    has no return value. *)
Definition main (topics : list topic) : M unit :=
  (_ <- connect ;;
   total_inserted <- process_topics topics ;;
   _ <- emit Closed ;;
   emit (Printed_total total_inserted))%M.

End Pipeline.

Arguments format py_repr v : simpl nomatch.

(* ===================================================================== *)
(** ** Shapes of the data on the wire *)
(* ===================================================================== *)

(** A nested list of a hit ([assignees], [cpc_current], [wipo],
    [inventors]): the key is missing, or holds a list of objects. *)
Inductive entries (kv : list (string * value)) (k : string)
  : list (list (string * value)) -> Prop :=
| entries_missing : assoc k kv = None -> entries kv k []
| entries_list l : assoc k kv = Some (VList (map VDict l)) -> entries kv k l.

(** A key of an object, [None] when missing. *)
Definition field (k : string) (d : list (string * value)) : value :=
  match assoc k d with Some v => v | None => VNone end.

(** A part of an inventor's name, the empty string when missing. *)
Definition name_part (k : string) (d : list (string * value)) : value :=
  match assoc k d with Some v => v | None => VStr "" end.

Definition full_name (py_repr : value -> string) (inv : list (string * value))
  : string :=
  format py_repr (name_part "inventor_name_first" inv) +:+ " "
  +:+ format py_repr (name_part "inventor_name_last" inv).

(** Strings made of whitespace only, and strings that begin or end with
    whitespace. *)
Fixpoint blank (s : string) : bool :=
  match s with
  | "" => true
  | String c s' => is_space c && blank s'
  end.

Definition starts_blank (s : string) : bool :=
  match s with
  | "" => false
  | String c _ => is_space c
  end.

Fixpoint ends_blank (s : string) : bool :=
  match s with
  | "" => false
  | String c "" => is_space c
  | String _ s' => ends_blank s'
  end.

(** [t] is [s] without its leading and trailing whitespace. *)
Definition trimmed_of (s t : string) : Prop :=
  (exists l r, s = l +:+ t +:+ r /\ blank l = true /\ blank r = true)
  /\ starts_blank t = false /\ ends_blank t = false.

(* ===================================================================== *)
(** ** Properties of [strip] *)
(* ===================================================================== *)

Lemma append_cons c (a b : string) : String c a +:+ b = String c (a +:+ b).
Proof. reflexivity. Qed.

Lemma append_nil (b : string) : "" +:+ b = b.
Proof. reflexivity. Qed.

Lemma append_assoc (a b c : string) : (a +:+ b) +:+ c = a +:+ (b +:+ c).
Proof.
  induction a as [|x a IH]; [reflexivity|].
  rewrite !append_cons. congruence.
Qed.

Lemma lstrip_split s :
  exists l, s = l +:+ lstrip s /\ blank l = true /\ starts_blank (lstrip s) = false.
Proof.
  induction s as [|c s IH]; simpl.
  - exists ""; auto.
  - destruct (is_space c) eqn:Hc.
    + destruct IH as (l & Hl & Hb & Hs).
      exists (String c l). rewrite append_cons. simpl. rewrite Hc, Hb.
      repeat split; auto. congruence.
    + exists "". rewrite append_nil. simpl. auto.
Qed.

Lemma rstrip_split s :
  exists r, s = rstrip s +:+ r /\ blank r = true /\ ends_blank (rstrip s) = false.
Proof.
  induction s as [|c s IH]; simpl.
  - exists ""; auto.
  - destruct IH as (r & Hr & Hb & He).
    destruct (rstrip s) as [|c' t] eqn:Ht.
    + rewrite append_nil in Hr. subst s.
      destruct (is_space c) eqn:Hc.
      * exists (String c r). rewrite append_nil. simpl. rewrite Hc, Hb. auto.
      * exists r. rewrite append_cons, append_nil. simpl. rewrite Hc. auto.
    + exists r. rewrite append_cons. split; [congruence|]. split; [exact Hb|].
      exact He.
Qed.

Lemma rstrip_starts s :
  starts_blank s = false -> starts_blank (rstrip s) = false.
Proof.
  destruct s as [|c s]; simpl; auto.
  intros Hc. destruct (rstrip s); [rewrite Hc|]; auto.
Qed.

Lemma strip_trimmed s : trimmed_of s (strip s).
Proof.
  unfold trimmed_of, strip.
  destruct (lstrip_split s) as (l & Hl & Hbl & Hs).
  destruct (rstrip_split (lstrip s)) as (r & Hr & Hbr & He).
  split; [|split; auto using rstrip_starts].
  exists l, r. split; auto.
  rewrite <- Hr. exact Hl.
Qed.

(* ===================================================================== *)
(** ** The normalizer on well-shaped hits *)
(* ===================================================================== *)

(** The record the normalizer is expected to build from a hit [kv] whose
    nested lists are [assignees], [cpcs], [wipos] and [inventors]. *)
Definition normalized (py_repr : value -> string) (kv : list (string * value))
    (assignees cpcs wipos inventors : list (list (string * value))) : row :=
  let first_assignee := hd [] assignees in
  <["patent_id" := field "patent_id" kv]>
  (<["patent_title" := field "patent_title" kv]>
  (<["patent_date" := field "patent_date" kv]>
  (<["assignee_organization" := field "assignee_organization" first_assignee]>
  (<["assignee_country" := field "assignee_country" first_assignee]>
  (<["assignee_type" := field "assignee_type" first_assignee]>
  (<["cpc_groups" :=
       VList (List.filter truthy (map (field "cpc_group_id") cpcs))]>
  (<["wipo_field_id" := field "wipo_field_id" (hd [] wipos)]>
  (<["inventor_count" := VInt (Z.of_nat (length inventors))]>
  (<["inventor_names" :=
       VList (map (fun inv => VStr (strip (full_name py_repr inv))) inventors)]>
  (<["raw_data" := VDict kv]> ∅)))))))))).

Lemma dict_get_field kv k : dict_get (VDict kv) k VNone = Ok (field k kv).
Proof. reflexivity. Qed.

Lemma dict_get_entries kv k l :
  entries kv k l -> dict_get (VDict kv) k (VList []) = Ok (VList (map VDict l)).
Proof. intros [H|l' H]; simpl; rewrite H; reflexivity. Qed.

Lemma rmap_inventor_name py_repr l :
  rmap (inventor_name py_repr) (map VDict l)
  = Ok (map (fun inv => VStr (strip (full_name py_repr inv))) l).
Proof.
  induction l as [|inv l IH]; [reflexivity|].
  cbn [map rmap]. rewrite IH. reflexivity.
Qed.

Lemma rmap_cpc_group l :
  exists gs, rmap cpc_group (map VDict l) = Ok gs
             /\ concat gs = List.filter truthy (map (field "cpc_group_id") l).
Proof.
  induction l as [|d l (gs & Hgs & Hc)].
  - exists []. split; reflexivity.
  - exists ((if truthy (field "cpc_group_id" d)
             then [field "cpc_group_id" d] else []) :: gs).
    split.
    + cbn [map rmap]. rewrite Hgs. reflexivity.
    + cbn [concat map List.filter]. rewrite Hc.
      destruct (truthy (field "cpc_group_id" d)); reflexivity.
Qed.

(** The first element of a nested list, [{}] when there is none. *)
Lemma first_entry l :
  (if truthy (VList (map VDict l)) then subscript0 (VList (map VDict l))
   else Ok (VDict [])) = Ok (VDict (hd [] l)).
Proof. destruct l; reflexivity. Qed.

Lemma extract_shaped py_repr kv assignees cpcs wipos inventors :
  entries kv "assignees" assignees ->
  entries kv "cpc_current" cpcs ->
  entries kv "wipo" wipos ->
  entries kv "inventors" inventors ->
  extract_patent_metadata py_repr (VDict kv)
  = Ok (normalized py_repr kv assignees cpcs wipos inventors).
Proof.
  intros Ha Hc Hw Hi. unfold extract_patent_metadata.
  rewrite (dict_get_entries _ _ _ Ha), (dict_get_entries _ _ _ Hc),
    (dict_get_entries _ _ _ Hw), (dict_get_entries _ _ _ Hi).
  cbn [rbind]. rewrite first_entry. cbn [rbind iterate].
  destruct (rmap_cpc_group cpcs) as (gs & Hgs & Hcat). rewrite Hgs.
  cbn [rbind]. rewrite rmap_inventor_name.
  assert (Hwipo :
    (if truthy (VList (map VDict wipos))
     then rbind (subscript0 (VList (map VDict wipos)))
            (fun w => dict_get w "wipo_field_id" VNone)
     else Ok VNone) = Ok (field "wipo_field_id" (hd [] wipos))).
  { destruct wipos; reflexivity. }
  rewrite Hwipo. cbn [rbind]. rewrite !dict_get_field. cbn [rbind len].
  rewrite Hcat, length_map. reflexivity.
Qed.

(** C4.  Normalization is defensive.  For every hit that is an object whose
    nested lists ([assignees], [cpc_current], [wipo], [inventors]) are each
    missing or a list of objects, [extract_patent_metadata] raises nothing
    and returns a record in which: the assignee fields are those of the
    first assignee, absent when there is none; [cpc_groups] keeps the
    non-empty group ids in order, so it is empty for an empty list;
    [wipo_field_id] is that of the first WIPO entry, absent when there is
    none; [inventor_count] is the number of inventor entries, whatever
    their names; and [inventor_names] has, for each entry in order, the
    string "first last" with a missing part taken as the empty string and
    leading and trailing whitespace removed. *)
Theorem extract_patent_metadata_defensive
    py_repr kv assignees cpcs wipos inventors :
  entries kv "assignees" assignees ->
  entries kv "cpc_current" cpcs ->
  entries kv "wipo" wipos ->
  entries kv "inventors" inventors ->
  exists md names,
    extract_patent_metadata py_repr (VDict kv) = Ok md
    /\ md !! "assignee_organization"
       = Some (field "assignee_organization" (hd [] assignees))
    /\ md !! "assignee_country"
       = Some (field "assignee_country" (hd [] assignees))
    /\ md !! "assignee_type" = Some (field "assignee_type" (hd [] assignees))
    /\ (assignees = [] ->
        md !! "assignee_organization" = Some VNone
        /\ md !! "assignee_country" = Some VNone
        /\ md !! "assignee_type" = Some VNone)
    /\ md !! "cpc_groups"
       = Some (VList (List.filter truthy (map (field "cpc_group_id") cpcs)))
    /\ (cpcs = [] -> md !! "cpc_groups" = Some (VList []))
    /\ md !! "wipo_field_id" = Some (field "wipo_field_id" (hd [] wipos))
    /\ (wipos = [] -> md !! "wipo_field_id" = Some VNone)
    /\ md !! "inventor_count" = Some (VInt (Z.of_nat (length inventors)))
    /\ md !! "inventor_names" = Some (VList (map VStr names))
    /\ names = map (fun inv => strip (full_name py_repr inv)) inventors
    /\ Forall2 (fun inv n => trimmed_of (full_name py_repr inv) n)
         inventors names
    /\ md !! "raw_data" = Some (VDict kv).
Proof.
  intros Ha Hc Hw Hi.
  exists (normalized py_repr kv assignees cpcs wipos inventors),
    (map (fun inv => strip (full_name py_repr inv)) inventors).
  split; [exact (extract_shaped _ _ _ _ _ _ Ha Hc Hw Hi)|].
  unfold normalized.
  repeat match goal with
         | |- _ /\ _ => split
         | |- _ -> _ => intros ->
         end;
    try reflexivity.
  - rewrite map_map. reflexivity.
  - clear. induction inventors as [|inv l IH]; constructor;
      [apply strip_trimmed | exact IH].
Qed.

(** The hit of the scenario: empty assignee, CPC and WIPO lists, one
    inventor entry with only a first name. *)
Definition hit_first_name_only : list (string * value) :=
  [("patent_id", VStr "P1"); ("assignees", VList []);
   ("cpc_current", VList []); ("wipo", VList []);
   ("inventors", VList [VDict [("inventor_name_first", VStr "First")]])].

Lemma extract_patent_metadata_defensive_witness :
  exists md,
    extract_patent_metadata (fun _ => "") (VDict hit_first_name_only) = Ok md
    /\ md !! "assignee_organization" = Some VNone
    /\ md !! "cpc_groups" = Some (VList [])
    /\ md !! "wipo_field_id" = Some VNone
    /\ md !! "inventor_count" = Some (VInt 1)
    /\ md !! "inventor_names" = Some (VList [VStr "First"]).
Proof.
  destruct (extract_patent_metadata_defensive (fun _ => "")
              hit_first_name_only [] [] []
              [[("inventor_name_first", VStr "First")]])
    as (md & names & He & _ & _ & _ & Ha & _ & Hc & _ & Hw & Hn & Hi & -> & _);
    try (apply entries_list; reflexivity).
  exists md. split; [exact He|].
  split; [apply Ha; reflexivity|].
  split; [apply Hc; reflexivity|].
  split; [apply Hw; reflexivity|].
  split; [exact Hn|exact Hi].
Defined.

(* ===================================================================== *)
(** ** The API client on failures *)
(* ===================================================================== *)

(** The request that [rate_limited_request] sends. *)
Definition api_request (cfg : config) (url : string)
    (params : list (string * value)) : request :=
  {| url := url; params := params;
     headers := [("X-Api-Key", API_KEY cfg)]; timeout := 30 |}.

Definition search_request (cfg : config) (query : string) (max_results : Z)
  : request :=
  api_request cfg (API_BASE_URL cfg +:+ "/patent/")
    [("q", VDict [("_and",
            VList [VDict [("_text_phrase", VDict [("patent_title", VStr query)])];
                   VDict [("_gte", VDict [("patent_date", MIN_DATE cfg)])]])]);
     ("f", VList [VStr "patent_id"; VStr "patent_title"; VStr "patent_date";
                  VStr "assignees"; VStr "cpc_current"; VStr "inventors";
                  VStr "wipo"]);
     ("o", VDict [("size", VInt (Z.min max_results 1000)); ("page", VInt 1)])].

Definition summary_request (cfg : config) (patent_id : value) : request :=
  api_request cfg (API_BASE_URL cfg +:+ "/g_brf_sum_text/")
    [("q", VDict [("patent_id", patent_id)])].

(** The state once a request has gone out: one more call in the trace, the
    store as it was. *)
Definition sent (st : state) (req : request) : state :=
  {| committed := committed st; working := working st;
     trace := trace st ++ [Requested req] |}.

(** A reply that is a transport-level failure: the connection failed, the
    call timed out, or the status is one that [raise_for_status] refuses. *)
Inductive transport_failure : result response -> Prop :=
| connection_failed : transport_failure (Raise ConnectionError)
| timed_out : transport_failure (Raise Timeout)
| bad_status r :
    400 <= status_code r < 600 -> transport_failure (Ok r).

(** A reply that came through with the object [kv] as its body. *)
Definition body_is (reply : result response) (kv : list (string * value))
  : Prop :=
  exists r, reply = Ok r
            /\ ~ (400 <= status_code r < 600)
            /\ resp_json r = Ok (VDict kv).

(** The error flag of a body, as the client reads it. *)
Definition error_flag (kv : list (string * value)) : bool :=
  truthy (match assoc "error" kv with Some v => v | None => VBool true end).

(** A well-formed reply whose body signals an application-level error. *)
Definition application_error (reply : result response) : Prop :=
  exists kv, body_is reply kv /\ error_flag kv = true.

Lemma raise_for_status_bad r :
  400 <= status_code r < 600 -> raise_for_status r = Raise HTTPError.
Proof.
  intros [H1 H2]. unfold raise_for_status.
  apply Z.leb_le in H1. apply Z.ltb_lt in H2. rewrite H1, H2. reflexivity.
Qed.

Lemma raise_for_status_good r :
  ~ (400 <= status_code r < 600) -> raise_for_status r = Ok tt.
Proof.
  intros H. unfold raise_for_status.
  destruct (400 <=? status_code r) eqn:H1; [|reflexivity].
  destruct (status_code r <? 600) eqn:H2; [|reflexivity].
  apply Z.leb_le in H1. apply Z.ltb_lt in H2. tauto.
Qed.

Lemma rate_limited_request_eq cfg E url params st :
  rate_limited_request cfg E url params st
  = (rbind (requests_get E (trace st) (api_request cfg url params))
       (fun r => rbind (raise_for_status r) (fun _ => Ok r)),
     sent st (api_request cfg url params)).
Proof.
  unfold rate_limited_request, bind, get_trace, emit, lift, ret, sent,
    api_request. cbn [trace committed working].
  destruct (requests_get E (trace st) _) as [r|e]; cbn [rbind]; [|reflexivity].
  destruct (raise_for_status r) as [[]|e]; reflexivity.
Qed.

(** What a call gives the client to parse: the body, or the exception of
    the transport. *)
Definition received (reply : result response) : result value :=
  rbind reply (fun r => rbind (raise_for_status r) (fun _ => resp_json r)).

Lemma received_failure reply :
  transport_failure reply ->
  exists e, received reply = Raise e /\ is_RequestException e = true.
Proof.
  intros [| |r Hr]; unfold received; cbn [rbind].
  - exists ConnectionError; auto.
  - exists Timeout; auto.
  - exists HTTPError. rewrite (raise_for_status_bad _ Hr). auto.
Qed.

Lemma received_body reply kv :
  body_is reply kv -> received reply = Ok (VDict kv).
Proof.
  intros (r & -> & Hs & Hj). unfold received. cbn [rbind].
  rewrite (raise_for_status_good _ Hs). exact Hj.
Qed.

Lemma search_patents_eq cfg E query max_results st :
  search_patents cfg E query max_results st
  = (match received (requests_get E (trace st)
                       (search_request cfg query max_results)) with
     | Raise e => if is_RequestException e then Ok (VList []) else Raise e
     | Ok data =>
         (err <- dict_get data "error" (VBool true) ;;
          if truthy err then Ok (VList [])
          else
            (patents <- dict_get data "patents" (VList []) ;;
             total_hits <- dict_get data "total_hits" (VInt 0) ;;
             _ <- len patents ;;
             Ok patents))%result
     end,
     sent st (search_request cfg query max_results)).
Proof.
  cbv beta zeta delta [search_patents try_except bind].
  rewrite rate_limited_request_eq. fold (search_request cfg query max_results).
  unfold received.
  destruct (requests_get E (trace st) _) as [r|e]; cbn [rbind].
  2:{ destruct (is_RequestException e); reflexivity. }
  destruct (raise_for_status r) as [[]|e]; cbn [rbind].
  2:{ destruct (is_RequestException e); reflexivity. }
  unfold lift, ret.
  destruct (resp_json r) as [data|e]; cbn [rbind].
  2:{ destruct (is_RequestException e); reflexivity. }
  destruct data; try reflexivity. cbn [dict_get rbind].
  destruct (truthy _); [reflexivity|].
  destruct (len _) as [n|e] eqn:Hlen; cbn [rbind]; [reflexivity|].
  assert (e = TypeError) as ->; [|reflexivity].
  destruct (match assoc "patents" kv with Some v => v | None => VList [] end);
    simpl in Hlen; congruence.
Qed.

(** The summary that the client reads out of a body. *)
Definition summary_in (data : value) : result value :=
  (err <- dict_get data "error" (VBool true) ;;
   if truthy err then Ok VNone
   else
     (texts <- dict_get data "g_brf_sum_texts" VNone ;;
      if negb (truthy texts) then Ok VNone
      else
        (texts' <- getitem data "g_brf_sum_texts" ;;
         first <- subscript0 texts' ;;
         dict_get first "summary_text" VNone)))%result.

Lemma dict_get_raises d k v e :
  dict_get d k v = Raise e -> is_RequestException e = false.
Proof. destruct d; simpl; intros H; inversion H; reflexivity. Qed.

Lemma getitem_raises d k e :
  getitem d k = Raise e -> is_RequestException e = false.
Proof.
  destruct d; simpl; intros H; try (inversion H; reflexivity).
  destruct (assoc k kv); inversion H; reflexivity.
Qed.

Lemma subscript0_raises x e :
  subscript0 x = Raise e -> is_RequestException e = false.
Proof.
  destruct x as [| | | |s|l|kv]; simpl; intros H;
    try (inversion H; reflexivity).
  - destruct s; inversion H; reflexivity.
  - destruct l; inversion H; reflexivity.
Qed.

Lemma summary_in_raises data e :
  summary_in data = Raise e -> is_RequestException e = false.
Proof.
  unfold summary_in.
  destruct (dict_get data "error" (VBool true)) as [err|e1] eqn:H1;
    cbn [rbind]; [|intros [= <-]; eauto using dict_get_raises].
  destruct (truthy err); [discriminate|].
  destruct (dict_get data "g_brf_sum_texts" VNone) as [texts|e2] eqn:H2;
    cbn [rbind]; [|intros [= <-]; eauto using dict_get_raises].
  destruct (negb (truthy texts)); [discriminate|].
  destruct (getitem data "g_brf_sum_texts") as [texts'|e3] eqn:H3;
    cbn [rbind]; [|intros [= <-]; eauto using getitem_raises].
  destruct (subscript0 texts') as [first|e4] eqn:H4;
    cbn [rbind]; [|intros [= <-]; eauto using subscript0_raises].
  apply dict_get_raises.
Qed.

Lemma fetch_patent_summary_eq cfg E patent_id st :
  fetch_patent_summary cfg E patent_id st
  = (match received (requests_get E (trace st)
                       (summary_request cfg patent_id)) with
     | Raise e => if is_RequestException e then Ok VNone else Raise e
     | Ok data => summary_in data
     end,
     sent st (summary_request cfg patent_id)).
Proof.
  cbv beta zeta delta [fetch_patent_summary try_except bind].
  rewrite rate_limited_request_eq. fold (summary_request cfg patent_id).
  unfold received.
  destruct (requests_get E (trace st) _) as [r|e]; cbn [rbind].
  2:{ destruct (is_RequestException e); reflexivity. }
  destruct (raise_for_status r) as [[]|e]; cbn [rbind].
  2:{ destruct (is_RequestException e); reflexivity. }
  unfold lift, ret.
  destruct (resp_json r) as [data|e]; cbn [rbind].
  2:{ destruct (is_RequestException e); reflexivity. }
  pose proof (summary_in_raises data) as Hr. unfold summary_in in *.
  destruct (dict_get data "error" (VBool true)) as [err|e1]; cbn [rbind] in *.
  2:{ rewrite (Hr e1 eq_refl). reflexivity. }
  destruct (truthy err); [reflexivity|].
  destruct (dict_get data "g_brf_sum_texts" VNone) as [texts|e2];
    cbn [rbind] in *.
  2:{ rewrite (Hr e2 eq_refl). reflexivity. }
  destruct (negb (truthy texts)); [reflexivity|].
  destruct (getitem data "g_brf_sum_texts") as [texts'|e3]; cbn [rbind] in *.
  2:{ rewrite (Hr e3 eq_refl). reflexivity. }
  destruct (subscript0 texts') as [first|e4]; cbn [rbind] in *.
  2:{ rewrite (Hr e4 eq_refl). reflexivity. }
  destruct (dict_get first "summary_text" VNone) as [s|e5].
  - reflexivity.
  - rewrite (Hr e5 eq_refl). reflexivity.
Qed.

(** The replies that the environment gives to the two calls of the client
    made in state [st]. *)
Definition search_reply (cfg : config) (E : env) (query : string)
    (max_results : Z) (st : state) : result response :=
  requests_get E (trace st) (search_request cfg query max_results).

Definition summary_reply (cfg : config) (E : env) (patent_id : value)
    (st : state) : result response :=
  requests_get E (trace st) (summary_request cfg patent_id).

Lemma search_patents_on_failure cfg E query max_results st :
  transport_failure (search_reply cfg E query max_results st)
  \/ application_error (search_reply cfg E query max_results st) ->
  search_patents cfg E query max_results st
  = (Ok (VList []), sent st (search_request cfg query max_results)).
Proof.
  intros H. rewrite search_patents_eq.
  fold (search_reply cfg E query max_results st). f_equal.
  destruct H as [H|(kv & Hb & Herr)].
  - destruct (received_failure _ H) as (e & -> & ->). reflexivity.
  - rewrite (received_body _ _ Hb). cbn [dict_get rbind].
    unfold error_flag in Herr. rewrite Herr. reflexivity.
Qed.

(** C5.  [search_patents] recovers from the expected failures: when the
    call fails in transport (connection error, timeout, or a status that
    [raise_for_status] refuses) or the reply is well-formed and its body
    signals an application-level error, the search raises nothing and
    returns the empty list; the one request it made is in the trace. *)
Theorem search_patents_failure_is_empty cfg E query max_results st :
  transport_failure (search_reply cfg E query max_results st)
  \/ application_error (search_reply cfg E query max_results st) ->
  search_patents cfg E query max_results st
  = (Ok (VList []), sent st (search_request cfg query max_results)).
Proof. apply search_patents_on_failure. Qed.

(** What the spec lets [fetchSummary] return for a reply: absent on a
    transport failure, on an application-level error and when the body has
    no summary; otherwise the summary text of the first entry. *)
Inductive summary_of : result response -> value -> Prop :=
| summary_transport reply :
    transport_failure reply -> summary_of reply VNone
| summary_application_error reply :
    application_error reply -> summary_of reply VNone
| summary_absent reply kv :
    body_is reply kv -> error_flag kv = false ->
    truthy (field "g_brf_sum_texts" kv) = false ->
    summary_of reply VNone
| summary_first reply kv entry rest :
    body_is reply kv -> error_flag kv = false ->
    assoc "g_brf_sum_texts" kv = Some (VList (VDict entry :: rest)) ->
    summary_of reply (field "summary_text" entry).

Lemma fetch_patent_summary_on cfg E patent_id st v :
  summary_of (summary_reply cfg E patent_id st) v ->
  fetch_patent_summary cfg E patent_id st
  = (Ok v, sent st (summary_request cfg patent_id)).
Proof.
  intros H. rewrite fetch_patent_summary_eq.
  fold (summary_reply cfg E patent_id st). f_equal.
  destruct H as [reply H|reply (kv & Hb & Herr)|reply kv Hb Herr Hn
                |reply kv entry rest Hb Herr Hl].
  - destruct (received_failure _ H) as (e & -> & ->). reflexivity.
  - rewrite (received_body _ _ Hb). unfold summary_in. cbn [dict_get rbind].
    unfold error_flag in Herr. rewrite Herr. reflexivity.
  - rewrite (received_body _ _ Hb). unfold summary_in. cbn [dict_get rbind].
    unfold error_flag in Herr. rewrite Herr.
    unfold field in Hn. rewrite Hn. reflexivity.
  - rewrite (received_body _ _ Hb). unfold summary_in. cbn [dict_get rbind].
    unfold error_flag in Herr. rewrite Herr.
    cbn [getitem]. rewrite Hl. reflexivity.
Qed.

(** C6.  [fetch_patent_summary] raises nothing on the expected replies and
    returns: absent ([None]) when the transport fails, when the body signals
    an application-level error, and when the body holds no summary; the
    summary text of the first entry of [g_brf_sum_texts] otherwise. *)
Theorem fetch_patent_summary_first_or_absent cfg E patent_id st v :
  summary_of (summary_reply cfg E patent_id st) v ->
  fetch_patent_summary cfg E patent_id st
  = (Ok v, sent st (summary_request cfg patent_id)).
Proof. apply fetch_patent_summary_on. Qed.

(** C10.  A well-formed body without any ["error"] key counts as an
    application-level error, the flag defaulting to true: the search
    returns the empty list and the summary fetch returns absent, whatever
    else the body holds (hits, summary texts). *)
Theorem missing_error_flag_is_error cfg E kv :
  assoc "error" kv = None ->
  (forall query max_results st,
      body_is (search_reply cfg E query max_results st) kv ->
      search_patents cfg E query max_results st
      = (Ok (VList []), sent st (search_request cfg query max_results)))
  /\ (forall patent_id st,
         body_is (summary_reply cfg E patent_id st) kv ->
         fetch_patent_summary cfg E patent_id st
         = (Ok VNone, sent st (summary_request cfg patent_id))).
Proof.
  intros Hk.
  assert (Hflag : error_flag kv = true).
  { unfold error_flag. rewrite Hk. reflexivity. }
  split.
  - intros query max_results st Hb.
    apply search_patents_on_failure. right. exists kv. auto.
  - intros patent_id st Hb.
    apply fetch_patent_summary_on. apply summary_application_error.
    exists kv. auto.
Qed.

(* ===================================================================== *)
(** ** Empty search *)
(* ===================================================================== *)

Lemma search_patents_state cfg E query max_results st r st' :
  search_patents cfg E query max_results st = (r, st') ->
  st' = sent st (search_request cfg query max_results).
Proof. rewrite search_patents_eq. intros [= _ <-]. reflexivity. Qed.

Lemma process_topic_nothing_found py_repr cfg E topic_config st patents st1 :
  search_patents cfg E (query topic_config) (max_patents topic_config) st
  = (Ok patents, st1) ->
  truthy patents = false ->
  process_topic py_repr cfg E topic_config st = (Ok 0, st1).
Proof.
  intros Hs Hp. cbv beta zeta delta [process_topic bind].
  rewrite Hs, Hp. reflexivity.
Qed.

(** C7.  When the search of a topic returns an empty list, [process_topic]
    returns 0 at once: the state it leaves is the state the search left,
    which is the initial one with the search request added to the trace,
    so no summary was requested and nothing was executed on the store. *)
Theorem process_topic_empty_search py_repr cfg E topic_config st st1 :
  search_patents cfg E (query topic_config) (max_patents topic_config) st
  = (Ok (VList []), st1) ->
  process_topic py_repr cfg E topic_config st = (Ok 0, st1)
  /\ st1 = sent st (search_request cfg (query topic_config)
                      (max_patents topic_config)).
Proof.
  intros Hs. split.
  - eapply process_topic_nothing_found; [exact Hs|reflexivity].
  - eapply search_patents_state. exact Hs.
Qed.

(* ===================================================================== *)
(** ** The upsert *)
(* ===================================================================== *)

Lemma bind_parameters_lookup parameters new c :
  bind_parameters parameters = Ok new ->
  c ∈ columns ->
  new !! c = parameters !! c /\ is_Some (parameters !! c).
Proof.
  unfold bind_parameters.
  destruct (forallb _ columns) eqn:Hall; [|discriminate].
  intros [= <-] Hc.
  rewrite forallb_forall in Hall.
  assert (Hs : is_Some (parameters !! c)).
  { apply list_elem_of_In in Hc. specialize (Hall c Hc).
    apply bool_decide_eq_true in Hall. exact Hall. }
  split; [|exact Hs].
  destruct Hs as [v Hv]. rewrite Hv.
  apply map_lookup_filter_Some. split; [exact Hv|exact Hc].
Qed.

Lemma bind_parameters_columns parameters new c v :
  bind_parameters parameters = Ok new ->
  new !! c = Some v -> c ∈ columns.
Proof.
  unfold bind_parameters.
  destruct (forallb _ columns); [|discriminate].
  intros [= <-] Hv. apply map_lookup_filter_Some in Hv. apply Hv.
Qed.

(** The state after a statement went through. *)
Definition executed (st : state) (id : string) (new : row) : state :=
  {| committed := committed st;
     working := upsert id new (working st);
     trace := trace st ++ [Executed new] |}.

(** The state after a statement was sent and refused. *)
Definition refused (st : state) (new : row) : state :=
  {| committed := committed st;
     working := working st;
     trace := trace st ++ [Executed new] |}.

Lemma execute_eq E patent_data st :
  execute E patent_data st
  = match bind_parameters patent_data with
    | Raise e => (Raise e, st)
    | Ok new =>
        match execute_fault E (trace st) new with
        | Some e => (Raise e, refused st new)
        | None =>
            match primary_key new with
            | Raise e => (Raise e, refused st new)
            | Ok id => (Ok tt, executed st id new)
            end
        end
    end.
Proof.
  unfold execute, bind, lift, get_trace, emit, raise, set_working.
  destruct (bind_parameters patent_data) as [new|e]; [|reflexivity].
  cbn [trace committed working].
  destruct (execute_fault E (trace st) new); [reflexivity|].
  destruct (primary_key new); reflexivity.
Qed.

Lemma insert_patent_eq E patent_data search_topic st :
  insert_patent E patent_data search_topic st
  = if bool_decide (is_Some (patent_data !! "cpc_groups")
                    /\ is_Some (patent_data !! "inventor_names")
                    /\ is_Some (patent_data !! "raw_data"))
    then execute E (<["search_topic" := VStr search_topic]> patent_data) st
    else (Raise KeyError, st).
Proof.
  unfold insert_patent, bind, lift, lookup_key.
  destruct (patent_data !! "cpc_groups") as [c|] eqn:Hc.
  2:{ rewrite bool_decide_eq_false_2; [reflexivity|].
      intros [[? ?] _]; discriminate. }
  rewrite (insert_id _ _ _ Hc).
  destruct (patent_data !! "inventor_names") as [n|] eqn:Hn.
  2:{ rewrite bool_decide_eq_false_2; [reflexivity|].
      intros (_ & [? ?] & _); discriminate. }
  rewrite (insert_id _ _ _ Hn).
  destruct (patent_data !! "raw_data") as [r|] eqn:Hr.
  2:{ rewrite bool_decide_eq_false_2; [reflexivity|].
      intros (_ & _ & [? ?]); discriminate. }
  rewrite (insert_id _ _ _ Hr).
  rewrite bool_decide_eq_true_2; [reflexivity|eauto].
Qed.

(** What a successful [insert_patent] did. *)
Lemma insert_patent_ok E patent_data search_topic st st' :
  insert_patent E patent_data search_topic st = (Ok tt, st') ->
  exists new id,
    bind_parameters (<["search_topic" := VStr search_topic]> patent_data)
    = Ok new
    /\ new !! "patent_id" = Some (VStr id)
    /\ st' = executed st id new.
Proof.
  rewrite insert_patent_eq. case_bool_decide; [|discriminate].
  rewrite execute_eq.
  destruct (bind_parameters _) as [new|e]; [|discriminate].
  destruct (execute_fault E (trace st) new); [discriminate|].
  unfold primary_key.
  destruct (new !! "patent_id") as [[| | | |id| |]|] eqn:Hid; try discriminate.
  intros [= <-]. exists new, id. auto.
Qed.

Lemma upsert_conflict id new t stored :
  t !! id = Some stored ->
  upsert id new t
  = <[id := set_excluded "search_topic" new
              (set_excluded "summary_text" new stored)]> t.
Proof. intros H. unfold upsert. rewrite H. reflexivity. Qed.

Lemma upsert_other id id' new t :
  id' ≠ id -> upsert id new t !! id' = t !! id'.
Proof.
  intros Hne. unfold upsert.
  destruct (t !! id); rewrite lookup_insert_ne; auto.
Qed.

Lemma insert_patent_conflict E patent_data search_topic st st' id stored :
  insert_patent E patent_data search_topic st = (Ok tt, st') ->
  patent_data !! "patent_id" = Some (VStr id) ->
  working st !! id = Some stored ->
  exists stored',
    working st' !! id = Some stored'
    /\ stored' !! "summary_text" = patent_data !! "summary_text"
    /\ stored' !! "search_topic" = Some (VStr search_topic)
    /\ (forall c, c ≠ "summary_text" -> c ≠ "search_topic" ->
                  stored' !! c = stored !! c)
    /\ (forall id', id' ≠ id -> working st' !! id' = working st !! id')
    /\ committed st' = committed st.
Proof.
  intros Hins Hid Hstored.
  destruct (insert_patent_ok _ _ _ _ _ Hins) as (new & id0 & Hnew & Hid0 & ->).
  assert (Hcol : forall c, c ∈ columns ->
            new !! c = (<["search_topic" := VStr search_topic]> patent_data) !! c
            /\ is_Some ((<["search_topic" := VStr search_topic]> patent_data) !! c)).
  { intros c Hc. exact (bind_parameters_lookup _ _ _ Hnew Hc). }
  destruct (Hcol "patent_id") as [Hp _]; [repeat constructor|].
  rewrite lookup_insert_ne in Hp by discriminate.
  rewrite Hid0, Hid in Hp. injection Hp as ->.
  destruct (Hcol "summary_text") as [Hs [s Hs']]; [repeat constructor|].
  rewrite lookup_insert_ne in Hs, Hs' by discriminate.
  destruct (Hcol "search_topic") as [Ht _]; [repeat constructor|].
  rewrite lookup_insert_eq in Ht.
  cbn [executed working committed].
  rewrite (upsert_conflict _ _ _ _ Hstored).
  eexists. split; [apply lookup_insert_eq|].
  unfold set_excluded. repeat split.
  - rewrite lookup_insert_ne by discriminate. rewrite lookup_insert_eq.
    rewrite Hs, Hs'. reflexivity.
  - rewrite lookup_insert_eq, Ht. reflexivity.
  - intros c Hc1 Hc2. rewrite !lookup_insert_ne by congruence. reflexivity.
  - intros id' Hne. rewrite lookup_insert_ne by congruence. reflexivity.
Qed.

(** C2.  Conflict policy.  When [insert_patent] goes through for a record
    whose [patent_id] is already a key of the table, the stored row takes
    the record's [summary_text] and [search_topic] and keeps every other
    column ([raw_data], [patent_title], [patent_date], [cpc_groups],
    [wipo_field_id], the assignee columns, [inventor_count],
    [inventor_names], [patent_id]) as it was stored; the other rows of the
    table do not change. *)
Theorem insert_patent_updates_summary_and_topic_only
    E patent_data search_topic st st' id stored :
  insert_patent E patent_data search_topic st = (Ok tt, st') ->
  patent_data !! "patent_id" = Some (VStr id) ->
  working st !! id = Some stored ->
  exists stored',
    working st' !! id = Some stored'
    /\ stored' !! "summary_text" = patent_data !! "summary_text"
    /\ stored' !! "search_topic" = Some (VStr search_topic)
    /\ (forall c, c ≠ "summary_text" -> c ≠ "search_topic" ->
                  stored' !! c = stored !! c)
    /\ (forall id', id' ≠ id -> working st' !! id' = working st !! id')
    /\ committed st' = committed st.
Proof. apply insert_patent_conflict. Qed.

Lemma set_excluded_id c (new : row) :
  is_Some (new !! c) -> set_excluded c new new = new.
Proof.
  intros [v Hv]. unfold set_excluded. rewrite Hv. apply insert_id. exact Hv.
Qed.

Lemma set_excluded_twice (new stored : row) :
  let stored' :=
    set_excluded "search_topic" new (set_excluded "summary_text" new stored) in
  set_excluded "search_topic" new (set_excluded "summary_text" new stored')
  = stored'.
Proof.
  cbv zeta. unfold set_excluded. apply map_eq. intros c.
  destruct (decide (c = "search_topic")) as [->|H1].
  { rewrite !lookup_insert_eq. reflexivity. }
  rewrite (lookup_insert_ne _ "search_topic" c) by congruence.
  destruct (decide (c = "summary_text")) as [->|H2].
  { rewrite lookup_insert_eq.
    rewrite lookup_insert_ne by discriminate.
    rewrite lookup_insert_eq. reflexivity. }
  rewrite !lookup_insert_ne by congruence. reflexivity.
Qed.

(** The statement is idempotent on the table, for parameters that carry the
    two columns it refreshes. *)
Lemma upsert_idempotent id (new : row) (t : table) :
  is_Some (new !! "summary_text") -> is_Some (new !! "search_topic") ->
  upsert id new (upsert id new t) = upsert id new t.
Proof.
  intros Hs Ht. unfold upsert at 2 3.
  destruct (t !! id) as [stored|] eqn:Hl.
  - rewrite (upsert_conflict id new _ _ (lookup_insert_eq _ _ _)).
    rewrite set_excluded_twice. apply insert_insert_eq.
  - rewrite (upsert_conflict id new _ _ (lookup_insert_eq _ _ _)).
    rewrite (set_excluded_id _ _ Hs), (set_excluded_id _ _ Ht).
    apply insert_insert_eq.
Qed.

Lemma insert_patent_twice E patent_data search_topic st st1 st2 :
  insert_patent E patent_data search_topic st = (Ok tt, st1) ->
  insert_patent E patent_data search_topic st1 = (Ok tt, st2) ->
  working st2 = working st1 /\ committed st2 = committed st1.
Proof.
  intros H1 H2.
  destruct (insert_patent_ok _ _ _ _ _ H1) as (new & id & Hnew & Hid & ->).
  destruct (insert_patent_ok _ _ _ _ _ H2) as (new' & id' & Hnew' & Hid' & ->).
  rewrite Hnew in Hnew'. injection Hnew' as <-.
  rewrite Hid in Hid'. injection Hid' as <-.
  cbn [executed working committed]. split; [|reflexivity].
  apply upsert_idempotent.
  - destruct (bind_parameters_lookup _ _ "summary_text" Hnew) as [-> H];
      [repeat constructor|exact H].
  - destruct (bind_parameters_lookup _ _ "search_topic" Hnew) as [-> H];
      [repeat constructor|exact H].
Qed.

(** C8.  The upsert is idempotent: when [insert_patent] goes through twice
    in a row for the same record under the same topic, the table after the
    second call is the table after the first (same keys, so no duplicate
    row, and the same value in every column). *)
Theorem insert_patent_idempotent E patent_data search_topic st st1 st2 :
  insert_patent E patent_data search_topic st = (Ok tt, st1) ->
  insert_patent E patent_data search_topic st1 = (Ok tt, st2) ->
  working st2 = working st1 /\ committed st2 = committed st1.
Proof. apply insert_patent_twice. Qed.

(* ===================================================================== *)
(** ** One record of a topic *)
(* ===================================================================== *)

Lemma bind_lift {A B} (r : result A) (a : A) (k : A -> M B) st :
  r = Ok a -> bind (lift r) k st = k a st.
Proof. intros ->. reflexivity. Qed.

Lemma bind_run {A B} (m : M A) (k : A -> M B) st a st1 :
  m st = (Ok a, st1) -> bind m k st = k a st1.
Proof. intros H. unfold bind. rewrite H. reflexivity. Qed.

Lemma bind_raise {A B} (m : M A) (k : A -> M B) st e st1 :
  m st = (Raise e, st1) -> bind m k st = (Raise e, st1).
Proof. intros H. unfold bind. rewrite H. reflexivity. Qed.

(** The state with one more event in the trace. *)
Definition logged (st : state) (e : event) : state :=
  {| committed := committed st; working := working st;
     trace := trace st ++ [e] |}.

Lemma commit_eq E st :
  commit E st
  = match commit_fault E (trace st) with
    | Some e => (Raise e, logged st Commit)
    | None => (Ok tt, {| committed := working st; working := working st;
                         trace := trace st ++ [Commit] |})
    end.
Proof.
  unfold commit, bind, get_trace, emit, raise, set_committed, logged.
  cbn [trace committed working].
  destruct (commit_fault E (trace st)); reflexivity.
Qed.

Lemma rollback_eq E st :
  rollback E st
  = match rollback_fault E (trace st) with
    | Some e => (Raise e, logged st Rollback)
    | None => (Ok tt, {| committed := committed st; working := committed st;
                         trace := trace st ++ [Rollback] |})
    end.
Proof.
  unfold rollback, bind, get_trace, emit, raise, set_working, logged.
  cbn [trace committed working].
  destruct (rollback_fault E (trace st)); reflexivity.
Qed.

(** Counting calls in a stretch of the trace. *)
Definition is_rollback (e : event) : bool :=
  match e with Rollback => true | _ => false end.

Definition is_execute (e : event) : bool :=
  match e with Executed _ => true | _ => false end.

Definition is_request (e : event) : bool :=
  match e with Requested _ => true | _ => false end.

Definition count (p : event -> bool) (evs : list event) : nat :=
  length (List.filter p evs).

Lemma count_app p evs1 evs2 :
  count p (evs1 ++ evs2) = (count p evs1 + count p evs2)%nat.
Proof. unfold count. rewrite List.filter_app, length_app. reflexivity. Qed.

(** The faults of the store are errors that [except Exception] catches, and
    a rollback goes through. *)
Record storage_errors_only (E : env) : Prop := {
  execute_fault_caught :
    forall tr r e, execute_fault E tr r = Some e -> is_Exception e = true;
  commit_fault_caught :
    forall tr e, commit_fault E tr = Some e -> is_Exception e = true;
  rollback_succeeds : forall tr, rollback_fault E tr = None
}.

(** A parameter mapping that carries every column of the statement. *)
Definition complete (patent_data : row) : Prop :=
  forall c, c ∈ columns -> c ≠ "search_topic" -> is_Some (patent_data !! c).

Lemma complete_bind_parameters patent_data topic_name :
  complete patent_data ->
  exists new,
    bind_parameters (<["search_topic" := VStr topic_name]> patent_data)
    = Ok new.
Proof.
  intros Hc. unfold bind_parameters.
  destruct (forallb _ columns) eqn:Hall; [eauto|].
  exfalso. apply not_true_iff_false in Hall. apply Hall.
  apply forallb_forall. intros c Hin. apply bool_decide_eq_true.
  destruct (decide (c = "search_topic")) as [->|Hne].
  - rewrite lookup_insert_eq. eauto.
  - rewrite lookup_insert_ne by congruence.
    apply Hc; [apply list_elem_of_In; exact Hin|exact Hne].
Qed.

(** The [try] block of [process_topic] around one upsert: it raises
    nothing and sends the statement once; either the statement and the
    commit went through, the count grows by one and the table is
    committed, or a rollback was made, the count stays and so does the
    committed table. *)
Lemma upsert_attempt E patent_data topic_name inserted_count st :
  storage_errors_only E ->
  complete patent_data ->
  exists n st' evs,
    try_except
      (_ <- insert_patent E patent_data topic_name ;;
       _ <- commit E ;;
       ret (inserted_count + 1))%M
      is_Exception
      (fun _ => _ <- rollback E ;; ret inserted_count)%M st
    = (Ok n, st')
    /\ trace st' = trace st ++ evs
    /\ count is_request evs = 0%nat
    /\ count is_execute evs = 1%nat
    /\ working st' = committed st'
    /\ ((n = inserted_count + 1 /\ count is_rollback evs = 0%nat)
        \/ (n = inserted_count /\ count is_rollback evs = 1%nat
            /\ committed st' = committed st)).
Proof.
  intros [Hx Hc Hr] Hcomplete.
  assert (Hhandler : forall st0 evs0,
    trace st0 = trace st ++ evs0 -> committed st0 = committed st ->
    count is_request evs0 = 0%nat -> count is_rollback evs0 = 0%nat ->
    count is_execute evs0 = 1%nat ->
    exists n st' evs,
      (_ <- rollback E ;; ret inserted_count)%M st0 = (Ok n, st')
      /\ trace st' = trace st ++ evs
      /\ count is_request evs = 0%nat
      /\ count is_execute evs = 1%nat
      /\ working st' = committed st'
      /\ ((n = inserted_count + 1 /\ count is_rollback evs = 0%nat)
          \/ (n = inserted_count /\ count is_rollback evs = 1%nat
              /\ committed st' = committed st))).
  { intros st0 evs0 Ht Hco Hq Hb He.
    unfold bind. rewrite rollback_eq, Hr. unfold ret.
    eexists _, _, (evs0 ++ [Rollback]). split; [reflexivity|].
    cbn [trace committed working]. rewrite Ht, <- app_assoc.
    split; [reflexivity|]. rewrite !count_app, Hq, Hb, He.
    split; [reflexivity|]. split; [reflexivity|]. split; [reflexivity|].
    right. cbn. auto. }
  unfold try_except, bind at 1.
  rewrite insert_patent_eq. rewrite bool_decide_eq_true_2.
  2:{ repeat split; apply Hcomplete; try discriminate; repeat constructor. }
  rewrite execute_eq.
  destruct (complete_bind_parameters _ topic_name Hcomplete) as [new ->].
  destruct (execute_fault E (trace st) new) as [e|] eqn:Hf.
  { rewrite (Hx _ _ _ Hf). apply (Hhandler (refused st new) [Executed new]);
      auto. }
  destruct (primary_key new) as [id|e] eqn:Hk.
  2:{ assert (e = DatabaseError) as ->.
      { unfold primary_key in Hk.
        destruct (new !! "patent_id") as [[]|]; congruence. }
      cbn [is_Exception].
      apply (Hhandler (refused st new) [Executed new]); auto. }
  unfold bind. rewrite commit_eq. cbn [executed trace].
  destruct (commit_fault E _) as [e|] eqn:Hcf.
  { rewrite (Hc _ _ Hcf).
    apply (Hhandler (logged (executed st id new) Commit)
             [Executed new; Commit]); auto.
    cbn. rewrite <- app_assoc. reflexivity. }
  unfold ret.
  eexists _, _, [Executed new; Commit]. split; [reflexivity|].
  cbn [trace committed working]. rewrite <- app_assoc.
  split; [reflexivity|]. split; [reflexivity|]. split; [reflexivity|].
  split; [reflexivity|]. left. split; reflexivity.
Qed.

(** A title as the data model has it: a string, or no title at all. *)
Definition text_or_missing (o : option value) : Prop :=
  match o with
  | None | Some (VStr _) => True
  | _ => False
  end.

(** A summary as the data model has it: a string, or absent. *)
Definition text_or_none (v : value) : Prop :=
  match v with
  | VNone | VStr _ => True
  | _ => False
  end.

(** A search hit with the shape of the wire protocol. *)
Inductive well_shaped_hit : value -> Prop :=
| shaped_hit kv assignees cpcs wipos inventors :
    entries kv "assignees" assignees ->
    entries kv "cpc_current" cpcs ->
    entries kv "wipo" wipos ->
    entries kv "inventors" inventors ->
    text_or_missing (assoc "patent_title" kv) ->
    well_shaped_hit (VDict kv).

(** Every reply to a summary request is one that the client expects. *)
Definition summary_replies_expected (cfg : config) (E : env) : Prop :=
  forall tr patent_id,
  exists v, summary_of (requests_get E tr (summary_request cfg patent_id)) v
            /\ text_or_none v.

Lemma normalized_complete py_repr kv assignees cpcs wipos inventors v :
  complete (<["summary_text" := v]>
              (normalized py_repr kv assignees cpcs wipos inventors)).
Proof.
  intros c Hc Hne. apply list_elem_of_In in Hc. simpl in Hc.
  repeat (destruct Hc as [<-|Hc];
          [first [congruence | eexists; reflexivity]|]).
  destruct Hc.
Qed.

Lemma process_patent_step py_repr cfg E topic_name inserted_count hit st :
  storage_errors_only E ->
  summary_replies_expected cfg E ->
  well_shaped_hit hit ->
  exists n st' evs,
    process_patent py_repr cfg E topic_name inserted_count hit st = (Ok n, st')
    /\ trace st' = trace st ++ evs
    /\ count is_request evs = 1%nat
    /\ count is_execute evs = 1%nat
    /\ working st' = committed st'
    /\ ((n = inserted_count + 1 /\ count is_rollback evs = 0%nat)
        \/ (n = inserted_count /\ count is_rollback evs = 1%nat
            /\ committed st' = committed st)).
Proof.
  intros HE Hreplies [kv assignees cpcs wipos inventors Ha Hc Hw Hi Ht].
  unfold process_patent.
  rewrite (bind_lift _ (field "patent_id" kv)) by reflexivity.
  erewrite bind_lift by reflexivity.
  rewrite (bind_lift _ tt).
  2:{ simpl. destruct (assoc "patent_title" kv) as [[]|]; simpl in Ht;
        try contradiction; reflexivity. }
  erewrite bind_lift by (apply extract_shaped; eassumption).
  destruct (Hreplies (trace st) (field "patent_id" kv)) as (v & Hv & Htext).
  erewrite bind_run by (apply fetch_patent_summary_on; exact Hv).
  erewrite (bind_run _ _ _ tt).
  2:{ destruct v; simpl in Htext; try contradiction; [reflexivity|].
      simpl. destruct (negb _); reflexivity. }
  set (st0 := sent st (summary_request cfg (field "patent_id" kv))).
  destruct (upsert_attempt E
              (<["summary_text" := v]>
                 (normalized py_repr kv assignees cpcs wipos inventors))
              topic_name inserted_count st0 HE (normalized_complete _ _ _ _ _ _ _))
    as (n & st' & evs & Hrun & Htr & Hq & Hx & Hw' & Hcase).
  exists n, st', (Requested (summary_request cfg (field "patent_id" kv)) :: evs).
  split; [exact Hrun|].
  split; [rewrite Htr; unfold st0; cbn [sent trace];
          rewrite <- app_assoc; reflexivity|].
  change (Requested ?r :: evs) with ([Requested r] ++ evs).
  rewrite !count_app, Hq, Hx.
  split; [reflexivity|]. split; [reflexivity|]. split; [exact Hw'|].
  destruct Hcase as [[-> Hb]|(-> & Hb & Hco)]; [left|right]; rewrite Hb; auto.
Qed.

Lemma for_each_records py_repr cfg E topic_name hits inserted_count st :
  storage_errors_only E ->
  summary_replies_expected cfg E ->
  Forall well_shaped_hit hits ->
  exists n st' evs,
    for_each (process_patent py_repr cfg E topic_name) hits inserted_count st
    = (Ok n, st')
    /\ trace st' = trace st ++ evs
    /\ count is_request evs = length hits
    /\ count is_execute evs = length hits
    /\ (count is_rollback evs <= length hits)%nat
    /\ n = inserted_count + Z.of_nat (length hits)
           - Z.of_nat (count is_rollback evs)
    /\ (hits ≠ [] -> working st' = committed st').
Proof.
  intros HE Hreplies Hhits. revert inserted_count st.
  induction Hhits as [|hit hits Hhit _ IH]; intros inserted_count st.
  - exists inserted_count, st, []. cbn. rewrite app_nil_r.
    repeat split; auto; try lia. congruence.
  - destruct (process_patent_step py_repr cfg E topic_name inserted_count
                hit st HE Hreplies Hhit)
      as (n1 & st1 & evs1 & Hrun1 & Htr1 & Hq1 & Hx1 & Hw1 & Hcase).
    destruct (IH n1 st1)
      as (n & st' & evs & Hrun & Htr & Hq & Hx & Hb & Hn & Hw).
    exists n, st', (evs1 ++ evs).
    split; [cbn [for_each]; rewrite (bind_run _ _ _ _ _ Hrun1); exact Hrun|].
    split; [rewrite Htr, Htr1, app_assoc; reflexivity|].
    rewrite !count_app, Hq1, Hx1, Hq, Hx. cbn [length].
    split; [reflexivity|]. split; [reflexivity|].
    assert (Hlast : working st' = committed st').
    { destruct hits as [|h hs]; [|apply Hw; discriminate].
      cbn in Hrun. injection Hrun as <- <-. exact Hw1. }
    destruct Hcase as [[-> Hb1]|(-> & Hb1 & _)]; rewrite Hb1;
      repeat split; auto; lia.
Qed.

Lemma process_topic_found py_repr cfg E topic_config st hits st1 :
  storage_errors_only E ->
  summary_replies_expected cfg E ->
  search_patents cfg E (query topic_config) (max_patents topic_config) st
  = (Ok (VList hits), st1) ->
  hits ≠ [] ->
  Forall well_shaped_hit hits ->
  exists n st' evs,
    process_topic py_repr cfg E topic_config st = (Ok n, st')
    /\ trace st' = trace st1 ++ evs
    /\ count is_request evs = length hits
    /\ count is_execute evs = length hits
    /\ n = Z.of_nat (length hits) - Z.of_nat (count is_rollback evs)
    /\ 0 <= n <= Z.of_nat (length hits)
    /\ working st' = committed st'.
Proof.
  intros HE Hreplies Hs Hne Hhits.
  destruct (for_each_records py_repr cfg E (name topic_config) hits 0 st1
              HE Hreplies Hhits)
    as (n & st' & evs & Hrun & Htr & Hq & Hx & Hb & Hn & Hw).
  exists n, st', evs.
  split.
  { cbv beta zeta delta [process_topic]. rewrite (bind_run _ _ _ _ _ Hs).
    destruct hits as [|h hs]; [congruence|]. cbn [truthy negb iterate].
    rewrite (bind_lift _ (h :: hs)) by reflexivity.
    rewrite (bind_run _ _ _ _ _ Hrun). reflexivity. }
  repeat split; auto; lia.
Qed.

(* ===================================================================== *)
(** ** The run over all topics *)
(* ===================================================================== *)

(** Spec 4.6, in its words: the topics are taken in the order given, each
    one processed on the state that the one before left; the per-topic
    counts are collected, and the run stops at the first exception. *)
Fixpoint topic_counts (py_repr : value -> string) (cfg : config) (E : env)
    (topics : list topic) : M (list Z) :=
  match topics with
  | [] => ret []
  | topic :: topics' =>
      (inserted <- process_topic py_repr cfg E topic ;;
       rest <- topic_counts py_repr cfg E topics' ;;
       ret (inserted :: rest))%M
  end.

Definition sum_counts (counts : list Z) : Z := fold_right Z.add 0 counts.

(** The state once the connection is made, and once the run is over with
    grand total [n]. *)
Definition connected (st : state) : state :=
  {| committed := committed st; working := committed st; trace := trace st |}.

Definition finished (st : state) (n : Z) : state :=
  {| committed := committed st; working := working st;
     trace := trace st ++ [Closed; Printed_total n] |}.

Lemma for_each_topics py_repr cfg E topics total st :
  for_each (fun total_inserted topic =>
              (inserted <- process_topic py_repr cfg E topic ;;
               ret (total_inserted + inserted))%M) topics total st
  = match topic_counts py_repr cfg E topics st with
    | (Ok counts, st') => (Ok (total + sum_counts counts), st')
    | (Raise e, st') => (Raise e, st')
    end.
Proof.
  revert total st. induction topics as [|topic topics IH]; intros total st.
  - cbn. rewrite Z.add_0_r. reflexivity.
  - cbn [for_each topic_counts].
    destruct (process_topic py_repr cfg E topic st) as [[inserted|e] st1]
      eqn:Hp.
    2:{ rewrite (bind_raise _ _ _ _ _ (bind_raise _ _ _ _ _ Hp)).
        rewrite (bind_raise _ _ _ _ _ Hp). reflexivity. }
    rewrite (bind_run _ _ _ (total + inserted) st1)
      by (rewrite (bind_run _ _ _ _ _ Hp); reflexivity).
    rewrite (bind_run _ _ _ _ _ Hp).
    rewrite IH.
    destruct (topic_counts py_repr cfg E topics st1) as [[counts|e] st2]
      eqn:Ht.
    2:{ rewrite (bind_raise _ _ _ _ _ Ht). reflexivity. }
    rewrite (bind_run _ _ _ _ _ Ht). unfold ret.
    cbn [sum_counts fold_right]. f_equal. f_equal.
    fold (sum_counts counts). lia.
Qed.

Lemma process_topics_sum py_repr cfg E topics st counts st' :
  topic_counts py_repr cfg E topics st = (Ok counts, st') ->
  process_topics py_repr cfg E topics st = (Ok (sum_counts counts), st').
Proof.
  intros H. unfold process_topics. rewrite for_each_topics, H. reflexivity.
Qed.

Lemma main_eq py_repr cfg E topics st counts st' :
  connect_fault E = None ->
  topic_counts py_repr cfg E topics (connected st) = (Ok counts, st') ->
  main py_repr cfg E topics st = (Ok tt, finished st' (sum_counts counts)).
Proof.
  intros Hc H. unfold main.
  rewrite (bind_run _ _ _ tt (connected st)).
  2:{ unfold connect. rewrite Hc. reflexivity. }
  rewrite (bind_run _ _ _ _ _ (process_topics_sum _ _ _ _ _ _ _ H)).
  unfold bind, emit, finished. cbn [trace committed working].
  rewrite <- app_assoc. reflexivity.
Qed.

(** C9.  The run.  [main] processes the topics one after the other in the
    order given, each on the state left by the one before, and its grand
    total, the number it reports when done, is the sum of the counts that
    [process_topic] returned. *)
Theorem main_sums_topic_counts py_repr cfg E topics st counts st' :
  connect_fault E = None ->
  topic_counts py_repr cfg E topics (connected st) = (Ok counts, st') ->
  process_topics py_repr cfg E topics (connected st)
  = (Ok (sum_counts counts), st')
  /\ main py_repr cfg E topics st
     = (Ok tt, finished st' (sum_counts counts)).
Proof.
  intros Hc H. split.
  - apply process_topics_sum. exact H.
  - apply main_eq; assumption.
Qed.

(* ===================================================================== *)
(** ** Scenarios *)
(* ===================================================================== *)

Module Scenario.

Definition cfg : config :=
  {| API_BASE_URL := "https://search.patentsview.org/api/v1";
     RATE_LIMIT := 45;
     MIN_DATE := VStr "2020-01-01";
     API_KEY := "secret" |}.

Definition no_repr : value -> string := fun _ => "".

Definition empty_store : state :=
  {| committed := ∅; working := ∅; trace := [] |}.

Definition solar : topic :=
  {| name := "solar"; query := "solar panel"; max_patents := 2 |}.

Definition wind : topic :=
  {| name := "wind"; query := "wind turbine"; max_patents := 3 |}.

Definition reply (body : value) : result response :=
  Ok {| status_code := 200; resp_json := Ok body |}.

(** A server that gives every request the same answer, and a store that
    refuses the statements for the record [refused_id]. *)
Definition world (answer : result response) (refused_id : string) : env :=
  {| requests_get := fun _ _ => answer;
     execute_fault := fun _ r =>
       match r !! "patent_id" with
       | Some (VStr id) =>
           if String.eqb id refused_id then Some DatabaseError else None
       | _ => None
       end;
     commit_fault := fun _ => None;
     rollback_fault := fun _ => None;
     connect_fault := None |}.

Definition hit (id : string) : value :=
  VDict [("patent_id", VStr id); ("patent_title", VStr "A title")].

(** A body with three hits and a summary text, and no error. *)
Definition body3 : list (string * value) :=
  [("error", VBool false);
   ("patents", VList [hit "P1"; hit "P2"; hit "P3"]);
   ("total_hits", VInt 3);
   ("g_brf_sum_texts", VList [VDict [("summary_text", VStr "Text A")]])].

(** The same without the error flag. *)
Definition body_no_flag : list (string * value) :=
  [("patents", VList [hit "P1"; hit "P2"; hit "P3"]);
   ("total_hits", VInt 3);
   ("g_brf_sum_texts", VList [VDict [("summary_text", VStr "Text A")]])].

Definition body_error : list (string * value) :=
  [("error", VBool true); ("patents", VList [hit "P1"])].

Definition body_empty : list (string * value) :=
  [("error", VBool false); ("patents", VList []); ("total_hits", VInt 0)].

Lemma body_is_reply kv tr req refused_id :
  body_is (requests_get (world (reply (VDict kv)) refused_id) tr req) kv.
Proof.
  eexists. split; [reflexivity|]. split; [cbn; lia|reflexivity].
Qed.

(** Parameters for record [id], as [process_topic] passes them. *)
Definition parameters (id title : string) (summary : value) : row :=
  <["summary_text" := summary]>
    (normalized no_repr [("patent_id", VStr id); ("patent_title", VStr title)]
       [] [] [] []).

(** A store that holds record P1 as found under topic wind, without a
    summary. *)
Definition store_with_P1 : state :=
  snd (insert_patent (world (reply (VDict body3)) "")
         (parameters "P1" "First title" VNone) "wind" empty_store).

End Scenario.

Lemma search_patents_failure_is_empty_witness :
  search_patents Scenario.cfg (Scenario.world (Raise Timeout) "")
    "solar panel" 2 Scenario.empty_store
  = (Ok (VList []),
     sent Scenario.empty_store (search_request Scenario.cfg "solar panel" 2))
  /\ search_patents Scenario.cfg
       (Scenario.world (Scenario.reply (VDict Scenario.body_error)) "")
       "solar panel" 2 Scenario.empty_store
     = (Ok (VList []),
        sent Scenario.empty_store
          (search_request Scenario.cfg "solar panel" 2)).
Proof.
  split; apply search_patents_failure_is_empty.
  - left. apply timed_out.
  - right. exists Scenario.body_error.
    split; [apply Scenario.body_is_reply|reflexivity].
Defined.

Lemma fetch_patent_summary_first_or_absent_witness :
  fetch_patent_summary Scenario.cfg
    (Scenario.world (Scenario.reply (VDict Scenario.body3)) "")
    (VStr "P1") Scenario.empty_store
  = (Ok (VStr "Text A"),
     sent Scenario.empty_store (summary_request Scenario.cfg (VStr "P1"))).
Proof.
  apply (fetch_patent_summary_first_or_absent Scenario.cfg _ (VStr "P1")
           Scenario.empty_store
           (field "summary_text" [("summary_text", VStr "Text A")])).
  apply (summary_first _ Scenario.body3 _ []).
  - apply Scenario.body_is_reply.
  - reflexivity.
  - reflexivity.
Defined.

Lemma missing_error_flag_is_error_witness :
  search_patents Scenario.cfg
    (Scenario.world (Scenario.reply (VDict Scenario.body_no_flag)) "")
    "solar panel" 2 Scenario.empty_store
  = (Ok (VList []),
     sent Scenario.empty_store (search_request Scenario.cfg "solar panel" 2))
  /\ fetch_patent_summary Scenario.cfg
       (Scenario.world (Scenario.reply (VDict Scenario.body_no_flag)) "")
       (VStr "P1") Scenario.empty_store
     = (Ok VNone,
        sent Scenario.empty_store (summary_request Scenario.cfg (VStr "P1"))).
Proof.
  destruct (missing_error_flag_is_error Scenario.cfg
              (Scenario.world (Scenario.reply (VDict Scenario.body_no_flag)) "")
              Scenario.body_no_flag eq_refl) as [Hs Hf].
  split.
  - apply Hs. apply Scenario.body_is_reply.
  - apply Hf. apply Scenario.body_is_reply.
Defined.

Lemma process_topic_empty_search_witness :
  process_topic Scenario.no_repr Scenario.cfg
    (Scenario.world (Scenario.reply (VDict Scenario.body_empty)) "")
    Scenario.solar Scenario.empty_store
  = (Ok 0,
     sent Scenario.empty_store (search_request Scenario.cfg "solar panel" 2)).
Proof.
  apply (process_topic_empty_search Scenario.no_repr Scenario.cfg
           (Scenario.world (Scenario.reply (VDict Scenario.body_empty)) "")
           Scenario.solar Scenario.empty_store).
  rewrite search_patents_eq. reflexivity.
Defined.

Lemma insert_patent_updates_summary_and_topic_only_witness :
  let E := Scenario.world (Scenario.reply (VDict Scenario.body3)) "" in
  let again := Scenario.parameters "P1" "Second title" (VStr "Text A") in
  exists stored stored',
    working Scenario.store_with_P1 !! "P1" = Some stored
    /\ working (snd (insert_patent E again "solar" Scenario.store_with_P1))
         !! "P1" = Some stored'
    /\ stored !! "summary_text" = Some VNone
    /\ stored' !! "summary_text" = Some (VStr "Text A")
    /\ stored !! "search_topic" = Some (VStr "wind")
    /\ stored' !! "search_topic" = Some (VStr "solar")
    /\ stored' !! "patent_title" = Some (VStr "First title")
    /\ stored' !! "raw_data" = stored !! "raw_data".
Proof.
  intros E again.
  assert (Hstored : exists stored,
             working Scenario.store_with_P1 !! "P1" = Some stored
             /\ stored !! "summary_text" = Some VNone
             /\ stored !! "search_topic" = Some (VStr "wind")
             /\ stored !! "patent_title" = Some (VStr "First title")).
  { eexists. repeat split; vm_compute; reflexivity. }
  destruct Hstored as (stored & Hl & Hs & Ht & Hti).
  destruct (insert_patent_updates_summary_and_topic_only E again "solar"
              Scenario.store_with_P1
              (snd (insert_patent E again "solar" Scenario.store_with_P1))
              "P1" stored)
    as (stored' & Hl' & Hs' & Ht' & Hframe & _).
  - vm_compute. reflexivity.
  - reflexivity.
  - exact Hl.
  - exists stored, stored'.
    split; [exact Hl|]. split; [exact Hl'|]. split; [exact Hs|].
    split; [exact Hs'|]. split; [exact Ht|]. split; [exact Ht'|].
    split; [rewrite Hframe by discriminate; exact Hti|].
    apply Hframe; discriminate.
Defined.

Lemma insert_patent_idempotent_witness :
  let E := Scenario.world (Scenario.reply (VDict Scenario.body3)) "" in
  let record := Scenario.parameters "P1" "First title" VNone in
  let st1 := snd (insert_patent E record "wind" Scenario.empty_store) in
  let st2 := snd (insert_patent E record "wind" st1) in
  working st2 = working st1 /\ committed st2 = committed st1.
Proof.
  intros E record st1 st2.
  apply (insert_patent_idempotent E record "wind" Scenario.empty_store).
  - vm_compute. reflexivity.
  - vm_compute. reflexivity.
Defined.

Lemma world_storage_errors_only answer refused_id :
  storage_errors_only (Scenario.world answer refused_id).
Proof.
  split; cbn.
  - intros _ r e.
    destruct (r !! "patent_id") as [[| | | |id| |]|]; try discriminate.
    destruct (String.eqb id refused_id); [|discriminate].
    intros [= <-]. reflexivity.
  - discriminate.
  - reflexivity.
Qed.

Lemma world_summary_replies refused_id :
  summary_replies_expected Scenario.cfg
    (Scenario.world (Scenario.reply (VDict Scenario.body3)) refused_id).
Proof.
  intros tr patent_id.
  exists (field "summary_text" [("summary_text", VStr "Text A")]).
  split; [|exact I].
  apply (summary_first _ Scenario.body3 _ []).
  - apply Scenario.body_is_reply.
  - reflexivity.
  - reflexivity.
Qed.

Lemma hit_well_shaped id : well_shaped_hit (Scenario.hit id).
Proof.
  apply (shaped_hit _ [] [] [] []);
    try (apply entries_missing; reflexivity).
  exact I.
Qed.

Lemma main_sums_topic_counts_witness :
  let E := Scenario.world (Scenario.reply (VDict Scenario.body3)) "P2" in
  let topics := [Scenario.solar; Scenario.wind] in
  exists st',
    topic_counts Scenario.no_repr Scenario.cfg E topics
      (connected Scenario.empty_store) = (Ok [2; 2], st')
    /\ main Scenario.no_repr Scenario.cfg E topics Scenario.empty_store
       = (Ok tt, finished st' 4).
Proof.
  intros E topics.
  exists (snd (topic_counts Scenario.no_repr Scenario.cfg E topics
                 (connected Scenario.empty_store))).
  assert (H : topic_counts Scenario.no_repr Scenario.cfg E topics
                (connected Scenario.empty_store)
              = (Ok [2; 2],
                 snd (topic_counts Scenario.no_repr Scenario.cfg E topics
                        (connected Scenario.empty_store)))).
  { vm_compute. reflexivity. }
  split; [exact H|].
  apply (main_sums_topic_counts Scenario.no_repr Scenario.cfg E topics
           Scenario.empty_store [2; 2] _ eq_refl H).
Defined.

(* ===================================================================== *)
(** ** More on the API client *)
(* ===================================================================== *)

(** The hits that the client reads out of a body. *)
Definition hits_in (data : value) : result value :=
  (err <- dict_get data "error" (VBool true) ;;
   if truthy err then Ok (VList [])
   else
     (patents <- dict_get data "patents" (VList []) ;;
      total_hits <- dict_get data "total_hits" (VInt 0) ;;
      _ <- len patents ;;
      Ok patents))%result.

Lemma search_patents_received cfg E query max_results st :
  search_patents cfg E query max_results st
  = (match received (search_reply cfg E query max_results st) with
     | Raise e => if is_RequestException e then Ok (VList []) else Raise e
     | Ok data => hits_in data
     end,
     sent st (search_request cfg query max_results)).
Proof. apply search_patents_eq. Qed.

Lemma len_raises x e : len x = Raise e -> e = TypeError.
Proof. destruct x; simpl; congruence. Qed.

Lemma hits_in_raises data e :
  hits_in data = Raise e -> is_RequestException e = false.
Proof.
  unfold hits_in. destruct data; simpl; try (intros [= <-]; reflexivity).
  destruct (truthy _); [discriminate|].
  destruct (len _) as [n|e'] eqn:Hl; simpl; [discriminate|].
  intros [= <-]. rewrite (len_raises _ _ Hl). reflexivity.
Qed.

Lemma search_patents_raises cfg E query max_results st e st' :
  search_patents cfg E query max_results st = (Raise e, st') ->
  is_RequestException e = false.
Proof.
  rewrite search_patents_received.
  destruct (received _) as [data|e0].
  - intros [= H _]. exact (hits_in_raises _ _ H).
  - destruct (is_RequestException e0) eqn:He; [discriminate|].
    intros [= <- _]. exact He.
Qed.

Lemma fetch_patent_summary_raises cfg E patent_id st e st' :
  fetch_patent_summary cfg E patent_id st = (Raise e, st') ->
  is_RequestException e = false.
Proof.
  rewrite fetch_patent_summary_eq.
  destruct (received _) as [data|e0].
  - intros [= H _]. exact (summary_in_raises _ _ H).
  - destruct (is_RequestException e0) eqn:He; [discriminate|].
    intros [= <- _]. exact He.
Qed.

(** X1.  No [RequestException] leaves the client: whatever the environment
    answers, an exception raised by [search_patents] or by
    [fetch_patent_summary] is not an instance of [RequestException] (those
    are all turned into the empty list, respectively [None]). *)
Theorem client_lets_no_request_exception_out cfg E e st st' :
  (forall query max_results,
      search_patents cfg E query max_results st = (Raise e, st') ->
      is_RequestException e = false)
  /\ (forall patent_id,
         fetch_patent_summary cfg E patent_id st = (Raise e, st') ->
         is_RequestException e = false).
Proof.
  split.
  - intros query max_results. apply search_patents_raises.
  - intros patent_id. apply fetch_patent_summary_raises.
Qed.

Lemma search_patents_hits cfg E query max_results st kv hits :
  body_is (search_reply cfg E query max_results st) kv ->
  error_flag kv = false ->
  assoc "patents" kv = Some (VList hits)
  \/ (assoc "patents" kv = None /\ hits = []) ->
  search_patents cfg E query max_results st
  = (Ok (VList hits), sent st (search_request cfg query max_results)).
Proof.
  intros Hb Herr Hp. rewrite search_patents_received, (received_body _ _ Hb).
  f_equal. unfold hits_in. cbn [dict_get rbind].
  unfold error_flag in Herr. rewrite Herr.
  destruct Hp as [->|[-> ->]]; reflexivity.
Qed.

(** X2.  A reply without error gives its hits as they are: when the body
    has a falsy error flag, [search_patents] returns the list under
    ["patents"] unchanged (same hits, same order), and the empty list when
    the key is missing; [total_hits] plays no part. *)
Theorem search_patents_returns_hits_verbatim
    cfg E query max_results st kv hits :
  body_is (search_reply cfg E query max_results st) kv ->
  error_flag kv = false ->
  assoc "patents" kv = Some (VList hits)
  \/ (assoc "patents" kv = None /\ hits = []) ->
  search_patents cfg E query max_results st
  = (Ok (VList hits), sent st (search_request cfg query max_results)).
Proof. apply search_patents_hits. Qed.

(** A value without a length: [None], a bool, a number. *)
Definition unsized (v : value) : Prop :=
  match v with
  | VNone | VBool _ | VInt _ | VFloat _ => True
  | _ => False
  end.

Lemma search_patents_malformed cfg E query max_results st :
  (forall kv v,
      body_is (search_reply cfg E query max_results st) kv ->
      error_flag kv = false ->
      assoc "patents" kv = Some v -> unsized v ->
      search_patents cfg E query max_results st
      = (Raise TypeError, sent st (search_request cfg query max_results)))
  /\ (forall r l,
         search_reply cfg E query max_results st = Ok r ->
         ~ (400 <= status_code r < 600) ->
         resp_json r = Ok (VList l) ->
         search_patents cfg E query max_results st
         = (Raise AttributeError,
            sent st (search_request cfg query max_results))).
Proof.
  split.
  - intros kv v Hb Herr Hp Hv.
    rewrite search_patents_received, (received_body _ _ Hb).
    f_equal. unfold hits_in. cbn [dict_get rbind].
    unfold error_flag in Herr. rewrite Herr, Hp.
    destruct v; simpl in Hv; try contradiction; reflexivity.
  - intros r l Hr Hs Hj. rewrite search_patents_received, Hr.
    unfold received. cbn [rbind].
    rewrite (raise_for_status_good _ Hs), Hj. reflexivity.
Qed.

(** X3.  Malformed search replies are not recovered from.  When the body
    has no error but its ["patents"] is [null] or a number, [search_patents]
    raises [TypeError] (the progress line takes [len(patents)]); when the
    body is a JSON array instead of an object it raises [AttributeError].
    In both cases the exception leaves the function. *)
Theorem search_patents_raises_on_malformed_body
    cfg E query max_results st :
  (forall kv v,
      body_is (search_reply cfg E query max_results st) kv ->
      error_flag kv = false ->
      assoc "patents" kv = Some v -> unsized v ->
      search_patents cfg E query max_results st
      = (Raise TypeError, sent st (search_request cfg query max_results)))
  /\ (forall r l,
         search_reply cfg E query max_results st = Ok r ->
         ~ (400 <= status_code r < 600) ->
         resp_json r = Ok (VList l) ->
         search_patents cfg E query max_results st
         = (Raise AttributeError,
            sent st (search_request cfg query max_results))).
Proof. apply search_patents_malformed. Qed.

(** The page size a request asks for: key ["size"] of parameter ["o"]. *)
Definition page_size (req : request) : option value :=
  match assoc "o" (params req) with
  | Some (VDict options) => assoc "size" options
  | _ => None
  end.

(** X4.  One request per search, of bounded size.  Whatever the reply and
    whatever [search_patents] returns or raises, it has sent exactly one
    request, to [API_BASE_URL/patent/], with the API key header and a
    timeout of 30; the page size asked for is [min(max_results, 1000)], so
    never above 1000 nor above [max_results]; the store is as it was. *)
Theorem search_patents_sends_one_bounded_request
    cfg E query max_results st :
  let req := search_request cfg query max_results in
  snd (search_patents cfg E query max_results st) = sent st req
  /\ url req = API_BASE_URL cfg +:+ "/patent/"
  /\ headers req = [("X-Api-Key", API_KEY cfg)]
  /\ timeout req = 30
  /\ page_size req = Some (VInt (Z.min max_results 1000))
  /\ Z.min max_results 1000 <= 1000
  /\ Z.min max_results 1000 <= max_results.
Proof.
  cbv zeta. rewrite search_patents_received. cbn [snd].
  repeat split; lia.
Qed.

Lemma client_lets_no_request_exception_out_witness :
  search_patents Scenario.cfg
    (Scenario.world (Scenario.reply (VList [])) "") "solar panel" 2
    Scenario.empty_store
  = (Raise AttributeError,
     sent Scenario.empty_store (search_request Scenario.cfg "solar panel" 2))
  /\ is_RequestException AttributeError = false.
Proof.
  assert (H : search_patents Scenario.cfg
                (Scenario.world (Scenario.reply (VList [])) "") "solar panel" 2
                Scenario.empty_store
              = (Raise AttributeError,
                 sent Scenario.empty_store
                   (search_request Scenario.cfg "solar panel" 2))).
  { rewrite search_patents_received. reflexivity. }
  split; [exact H|].
  exact (proj1 (client_lets_no_request_exception_out Scenario.cfg _ _ _ _)
           _ _ H).
Defined.

Lemma search_patents_returns_hits_verbatim_witness :
  search_patents Scenario.cfg
    (Scenario.world (Scenario.reply (VDict Scenario.body3)) "")
    "solar panel" 2 Scenario.empty_store
  = (Ok (VList [Scenario.hit "P1"; Scenario.hit "P2"; Scenario.hit "P3"]),
     sent Scenario.empty_store (search_request Scenario.cfg "solar panel" 2)).
Proof.
  apply (search_patents_returns_hits_verbatim _ _ _ _ _ Scenario.body3).
  - apply Scenario.body_is_reply.
  - reflexivity.
  - left. reflexivity.
Defined.

Lemma search_patents_raises_on_malformed_body_witness :
  search_patents Scenario.cfg
    (Scenario.world
       (Scenario.reply (VDict [("error", VBool false); ("patents", VNone)]))
       "")
    "solar panel" 2 Scenario.empty_store
  = (Raise TypeError,
     sent Scenario.empty_store (search_request Scenario.cfg "solar panel" 2)).
Proof.
  apply (proj1 (search_patents_raises_on_malformed_body _ _ _ _ _)
           [("error", VBool false); ("patents", VNone)] VNone).
  - apply Scenario.body_is_reply.
  - reflexivity.
  - reflexivity.
  - exact I.
Defined.

(* ===================================================================== *)
(** ** More on the normalizer *)
(* ===================================================================== *)

(** The keys of the dict that [extract_patent_metadata] returns. *)
Definition metadata_keys : list string :=
  ["patent_id"; "patent_title"; "patent_date"; "assignee_organization";
   "assignee_country"; "assignee_type"; "cpc_groups"; "wipo_field_id";
   "inventor_count"; "inventor_names"; "raw_data"].

Lemma rmap_length {A B} (f : A -> result B) xs ys :
  rmap f xs = Ok ys -> length ys = length xs.
Proof.
  revert ys. induction xs as [|x xs IH]; intros ys; cbn [rmap].
  - intros [= <-]. reflexivity.
  - destruct (f x) as [y|e]; cbn [rbind]; [|discriminate].
    destruct (rmap f xs) as [ys'|e]; cbn [rbind]; [|discriminate].
    intros [= <-]. cbn. f_equal. apply IH. reflexivity.
Qed.

Lemma rmap_Forall {A B} (f : A -> result B) (P : B -> Prop) xs ys :
  (forall x y, f x = Ok y -> P y) ->
  rmap f xs = Ok ys -> Forall P ys.
Proof.
  intros Hf. revert ys. induction xs as [|x xs IH]; intros ys; cbn [rmap].
  - intros [= <-]. constructor.
  - destruct (f x) as [y|e] eqn:Hy; cbn [rbind]; [|discriminate].
    destruct (rmap f xs) as [ys'|e]; cbn [rbind]; [|discriminate].
    intros [= <-]. constructor; eauto.
Qed.

Lemma chars_length s : length (chars s) = String.length s.
Proof. induction s; cbn; congruence. Qed.

Lemma iterate_len x l : iterate x = Ok l -> len x = Ok (Z.of_nat (length l)).
Proof.
  destruct x; simpl; intros [= <-]; try reflexivity.
  - rewrite chars_length. reflexivity.
  - rewrite length_map. reflexivity.
Qed.

(** What a successful call of [extract_patent_metadata] went through. *)
Lemma extract_patent_metadata_ok py_repr patent md :
  extract_patent_metadata py_repr patent = Ok md ->
  exists id title date org country type groups wipo invs names,
    md = <["patent_id" := id]>
         (<["patent_title" := title]>
         (<["patent_date" := date]>
         (<["assignee_organization" := org]>
         (<["assignee_country" := country]>
         (<["assignee_type" := type]>
         (<["cpc_groups" := VList (concat groups)]>
         (<["wipo_field_id" := wipo]>
         (<["inventor_count" := VInt (Z.of_nat (length invs))]>
         (<["inventor_names" := VList names]>
         (<["raw_data" := patent]> ∅))))))))))
    /\ (exists cpcs, rmap cpc_group cpcs = Ok groups)
    /\ rmap (inventor_name py_repr) invs = Ok names.
Proof.
  unfold extract_patent_metadata.
  repeat match goal with
         | |- rbind ?r _ = Ok _ -> _ =>
             let H := fresh "H" in
             destruct r eqn:H; cbn [rbind]; [|discriminate]
         end.
  intros [= <-].
  match goal with
  | Hi : iterate _ = Ok ?l, Hl : len _ = Ok ?z |- _ =>
      rewrite (iterate_len _ _ Hi) in Hl; injection Hl as <-
  end.
  repeat eexists; eauto.
Qed.

(** X5.  The shape of a normalized record.  Whenever
    [extract_patent_metadata] returns, for any hit, the dict has exactly
    the eleven keys of the source, [raw_data] is the hit itself, untouched,
    and the dict with a [summary_text] added carries every parameter that
    [insert_patent] needs. *)
Theorem extract_patent_metadata_keys py_repr patent md :
  extract_patent_metadata py_repr patent = Ok md ->
  dom md = list_to_set metadata_keys
  /\ md !! "raw_data" = Some patent
  /\ forall summary, complete (<["summary_text" := summary]> md).
Proof.
  intros H.
  destruct (extract_patent_metadata_ok _ _ _ H)
    as (id & title & date & org & country & type & groups & wipo & invs
        & names & -> & _ & _).
  split; [|split].
  - rewrite !dom_insert_L, dom_empty_L. cbn. set_solver.
  - reflexivity.
  - intros summary c Hc Hne. apply list_elem_of_In in Hc. simpl in Hc.
    repeat (destruct Hc as [<-|Hc];
            [first [congruence | eexists; reflexivity]|]).
    destruct Hc.
Qed.

Lemma inventor_name_text py_repr inv n :
  inventor_name py_repr inv = Ok n ->
  exists s, n = VStr s /\ starts_blank s = false /\ ends_blank s = false.
Proof.
  unfold inventor_name. destruct inv; simpl; try discriminate.
  intros [= <-]. eexists. split; [reflexivity|].
  apply strip_trimmed.
Qed.

(** X6.  Count and names agree.  Whenever [extract_patent_metadata]
    returns, [inventor_count] is the length of [inventor_names], and each
    name is a string with no whitespace at either end (possibly empty). *)
Theorem extract_patent_metadata_count_matches_names py_repr patent md :
  extract_patent_metadata py_repr patent = Ok md ->
  exists names,
    md !! "inventor_names" = Some (VList names)
    /\ md !! "inventor_count" = Some (VInt (Z.of_nat (length names)))
    /\ Forall (fun n => exists s, n = VStr s /\ starts_blank s = false
                                  /\ ends_blank s = false) names.
Proof.
  intros H.
  destruct (extract_patent_metadata_ok _ _ _ H)
    as (id & title & date & org & country & type & groups & wipo & invs
        & names & -> & _ & Hn).
  exists names. split; [reflexivity|]. split.
  - rewrite (rmap_length _ _ _ Hn). reflexivity.
  - eapply rmap_Forall; [|exact Hn]. apply inventor_name_text.
Qed.

Lemma cpc_group_truthy cpc g :
  cpc_group cpc = Ok g -> Forall (fun v => truthy v = true) g.
Proof.
  unfold cpc_group. destruct cpc; simpl; try discriminate.
  destruct (truthy _) eqn:Ht; intros [= <-]; repeat constructor. exact Ht.
Qed.

(** X7.  No empty classification id.  Whenever [extract_patent_metadata]
    returns, every element of [cpc_groups] is truthy: an entry whose
    [cpc_group_id] is missing, [null] or the empty string leaves nothing in
    the list. *)
Theorem extract_patent_metadata_cpc_groups_truthy py_repr patent md :
  extract_patent_metadata py_repr patent = Ok md ->
  exists groups,
    md !! "cpc_groups" = Some (VList groups)
    /\ Forall (fun v => truthy v = true) groups.
Proof.
  intros H.
  destruct (extract_patent_metadata_ok _ _ _ H)
    as (id & title & date & org & country & type & groups & wipo & invs
        & names & -> & (cpcs & Hg) & _).
  exists (concat groups). split; [reflexivity|].
  apply Forall_concat. eapply rmap_Forall; [|exact Hg].
  apply cpc_group_truthy.
Qed.

(** A hit with two inventors and two classification entries, one of them
    without a group id. *)
Definition hit_two_inventors : value :=
  VDict [("patent_id", VStr "P7");
         ("cpc_current",
          VList [VDict [("cpc_group_id", VStr "H02S20/30")];
                 VDict [("cpc_group_id", VStr "")]]);
         ("inventors",
          VList [VDict [("inventor_name_first", VStr "Ada");
                        ("inventor_name_last", VStr "Lovelace")];
                 VDict []])].

Lemma extract_patent_metadata_keys_witness :
  exists md,
    extract_patent_metadata Scenario.no_repr hit_two_inventors = Ok md
    /\ dom md = list_to_set metadata_keys
    /\ md !! "raw_data" = Some hit_two_inventors.
Proof.
  eexists. split; [reflexivity|].
  destruct (extract_patent_metadata_keys Scenario.no_repr hit_two_inventors
              _ eq_refl) as (Hd & Hr & _).
  split; [exact Hd|exact Hr].
Defined.

Lemma extract_patent_metadata_count_matches_names_witness :
  exists md names,
    extract_patent_metadata Scenario.no_repr hit_two_inventors = Ok md
    /\ md !! "inventor_names" = Some (VList names)
    /\ md !! "inventor_count" = Some (VInt (Z.of_nat (length names))).
Proof.
  destruct (extract_patent_metadata_count_matches_names Scenario.no_repr
              hit_two_inventors _ eq_refl) as (names & Hn & Hc & _).
  eexists _, names. split; [reflexivity|]. split; [exact Hn|exact Hc].
Defined.

Lemma extract_patent_metadata_cpc_groups_truthy_witness :
  exists md groups,
    extract_patent_metadata Scenario.no_repr hit_two_inventors = Ok md
    /\ md !! "cpc_groups" = Some (VList groups)
    /\ Forall (fun v => truthy v = true) groups.
Proof.
  destruct (extract_patent_metadata_cpc_groups_truthy Scenario.no_repr
              hit_two_inventors _ eq_refl) as (groups & Hg & Ht).
  eexists _, groups. split; [reflexivity|]. split; [exact Hg|exact Ht].
Defined.

Lemma extract_null_lists py_repr kv assignees wipos cpcs inventors v :
  unsized v ->
  (assoc "assignees" kv = Some VNone ->
   assoc "wipo" kv = Some VNone ->
   entries kv "cpc_current" cpcs ->
   entries kv "inventors" inventors ->
   extract_patent_metadata py_repr (VDict kv)
   = Ok (normalized py_repr kv [] cpcs [] inventors))
  /\ (entries kv "assignees" assignees ->
      assoc "cpc_current" kv = Some v ->
      extract_patent_metadata py_repr (VDict kv) = Raise TypeError)
  /\ (entries kv "assignees" assignees ->
      entries kv "cpc_current" cpcs ->
      entries kv "wipo" wipos ->
      assoc "inventors" kv = Some v ->
      extract_patent_metadata py_repr (VDict kv) = Raise TypeError).
Proof.
  intros Hv. split; [|split].
  - intros Ha Hw Hc Hi. unfold extract_patent_metadata.
    cbn [dict_get]. rewrite Ha, Hw. cbn [rbind truthy].
    pose proof (dict_get_entries _ _ _ Hc) as Hc'.
    pose proof (dict_get_entries _ _ _ Hi) as Hi'.
    cbn [dict_get] in Hc', Hi'. injection Hc' as Hc'. injection Hi' as Hi'.
    rewrite Hc', Hi'. cbn [rbind iterate].
    destruct (rmap_cpc_group cpcs) as (gs & Hgs & Hcat). rewrite Hgs.
    cbn [rbind]. rewrite rmap_inventor_name. cbn [rbind len].
    rewrite Hcat, length_map. unfold normalized, field. cbn [hd assoc].
    reflexivity.
  - intros Ha Hc. unfold extract_patent_metadata.
    rewrite (dict_get_entries _ _ _ Ha). cbn [rbind].
    rewrite first_entry. cbn [rbind dict_get]. rewrite Hc.
    destruct v; simpl in Hv; try contradiction; reflexivity.
  - intros Ha Hc Hw Hi. unfold extract_patent_metadata.
    rewrite (dict_get_entries _ _ _ Ha), (dict_get_entries _ _ _ Hc),
      (dict_get_entries _ _ _ Hw).
    cbn [rbind]. rewrite first_entry. cbn [rbind iterate].
    destruct (rmap_cpc_group cpcs) as (gs & Hgs & _). rewrite Hgs.
    cbn [rbind].
    assert (Hwipo :
      (if truthy (VList (map VDict wipos))
       then rbind (subscript0 (VList (map VDict wipos)))
              (fun w => dict_get w "wipo_field_id" VNone)
       else Ok VNone) = Ok (field "wipo_field_id" (hd [] wipos))).
    { destruct wipos; reflexivity. }
    rewrite Hwipo. cbn [rbind dict_get]. rewrite Hi.
    destruct v; simpl in Hv; try contradiction; reflexivity.
Qed.

(** X8.  A [null] is not a missing key.  The default of [.get(key, [])]
    applies only when the key is absent.  With ["assignees"] and ["wipo"]
    present and [null], the normalizer still returns, as for empty lists
    (both are only tested for truth); with ["cpc_current"] or
    ["inventors"] present and [null], or a number, it raises [TypeError],
    since those two are iterated over. *)
Theorem extract_patent_metadata_null_lists
    py_repr kv assignees wipos cpcs inventors v :
  unsized v ->
  (assoc "assignees" kv = Some VNone ->
   assoc "wipo" kv = Some VNone ->
   entries kv "cpc_current" cpcs ->
   entries kv "inventors" inventors ->
   extract_patent_metadata py_repr (VDict kv)
   = Ok (normalized py_repr kv [] cpcs [] inventors))
  /\ (entries kv "assignees" assignees ->
      assoc "cpc_current" kv = Some v ->
      extract_patent_metadata py_repr (VDict kv) = Raise TypeError)
  /\ (entries kv "assignees" assignees ->
      entries kv "cpc_current" cpcs ->
      entries kv "wipo" wipos ->
      assoc "inventors" kv = Some v ->
      extract_patent_metadata py_repr (VDict kv) = Raise TypeError).
Proof. apply extract_null_lists. Qed.

Lemma extract_patent_metadata_null_lists_witness :
  extract_patent_metadata Scenario.no_repr
    (VDict [("patent_id", VStr "P1"); ("assignees", VNone); ("wipo", VNone)])
  = Ok (normalized Scenario.no_repr
          [("patent_id", VStr "P1"); ("assignees", VNone); ("wipo", VNone)]
          [] [] [] [])
  /\ extract_patent_metadata Scenario.no_repr
       (VDict [("patent_id", VStr "P1"); ("cpc_current", VNone)])
     = Raise TypeError
  /\ extract_patent_metadata Scenario.no_repr
       (VDict [("patent_id", VStr "P1"); ("inventors", VNone)])
     = Raise TypeError.
Proof.
  split; [|split].
  - apply (proj1 (extract_patent_metadata_null_lists Scenario.no_repr
                    _ [] [] [] [] VNone I));
      try reflexivity; apply entries_missing; reflexivity.
  - apply (proj1 (proj2 (extract_patent_metadata_null_lists Scenario.no_repr
                           _ [] [] [] [] VNone I))).
    + apply entries_missing; reflexivity.
    + reflexivity.
  - apply (proj2 (proj2 (extract_patent_metadata_null_lists Scenario.no_repr
                           _ [] [] [] [] VNone I)));
      try (apply entries_missing; reflexivity).
    reflexivity.
Defined.

(* ===================================================================== *)
(** ** More on the upsert *)
(* ===================================================================== *)

Lemma insert_patent_fresh E patent_data search_topic st st' id :
  insert_patent E patent_data search_topic st = (Ok tt, st') ->
  patent_data !! "patent_id" = Some (VStr id) ->
  working st !! id = None ->
  exists new,
    working st' !! id = Some new
    /\ (forall c, c ∈ columns -> c ≠ "search_topic" ->
                  new !! c = patent_data !! c)
    /\ new !! "search_topic" = Some (VStr search_topic)
    /\ (forall c, c ∉ columns -> new !! c = None)
    /\ (forall id', id' ≠ id -> working st' !! id' = working st !! id')
    /\ size (working st') = S (size (working st)).
Proof.
  intros Hins Hid Hfree.
  destruct (insert_patent_ok _ _ _ _ _ Hins) as (new & id0 & Hnew & Hid0 & ->).
  destruct (bind_parameters_lookup _ _ "patent_id" Hnew) as [Hp _];
    [repeat constructor|].
  rewrite lookup_insert_ne in Hp by discriminate.
  rewrite Hid0, Hid in Hp. injection Hp as ->.
  cbn [executed working]. unfold upsert. rewrite Hfree.
  exists new. split; [apply lookup_insert_eq|].
  split; [|split; [|split; [|split]]].
  - intros c Hc Hne.
    destruct (bind_parameters_lookup _ _ c Hnew Hc) as [-> _].
    apply lookup_insert_ne. congruence.
  - destruct (bind_parameters_lookup _ _ "search_topic" Hnew) as [-> _];
      [repeat constructor|]. apply lookup_insert_eq.
  - intros c Hc. destruct (new !! c) as [v|] eqn:Hv; [|reflexivity].
    exfalso. apply Hc. exact (bind_parameters_columns _ _ _ _ Hnew Hv).
  - intros id' Hne. apply lookup_insert_ne. congruence.
  - apply map_size_insert_None. exact Hfree.
Qed.

(** X9.  Insert, then look up.  When [insert_patent] goes through for a
    record whose [patent_id] is not yet a key of the table, the table gets
    one more row under that id; the row has the value of the record in
    each of the twelve columns besides [search_topic], the topic given in
    [search_topic], and no other column; the rows already there do not
    change. *)
Theorem insert_patent_new_row E patent_data search_topic st st' id :
  insert_patent E patent_data search_topic st = (Ok tt, st') ->
  patent_data !! "patent_id" = Some (VStr id) ->
  working st !! id = None ->
  exists new,
    working st' !! id = Some new
    /\ (forall c, c ∈ columns -> c ≠ "search_topic" ->
                  new !! c = patent_data !! c)
    /\ new !! "search_topic" = Some (VStr search_topic)
    /\ (forall c, c ∉ columns -> new !! c = None)
    /\ (forall id', id' ≠ id -> working st' !! id' = working st !! id')
    /\ size (working st') = S (size (working st)).
Proof. apply insert_patent_fresh. Qed.

Lemma bind_parameters_missing parameters c :
  c ∈ columns -> parameters !! c = None ->
  bind_parameters parameters = Raise KeyError.
Proof.
  intros Hc Hn. unfold bind_parameters.
  destruct (forallb _ columns) eqn:Hall; [|reflexivity].
  rewrite forallb_forall in Hall.
  apply list_elem_of_In in Hc. specialize (Hall c Hc).
  apply bool_decide_eq_true in Hall. rewrite Hn in Hall.
  destruct Hall as [? ?]. discriminate.
Qed.

Lemma insert_patent_missing E patent_data search_topic st c :
  c ∈ columns -> c ≠ "search_topic" -> patent_data !! c = None ->
  insert_patent E patent_data search_topic st = (Raise KeyError, st).
Proof.
  intros Hc Hne Hn. rewrite insert_patent_eq.
  case_bool_decide; [|reflexivity].
  rewrite execute_eq.
  rewrite (bind_parameters_missing _ c Hc); [reflexivity|].
  rewrite lookup_insert_ne by congruence. exact Hn.
Qed.

(** X10.  A record that lacks a parameter.  When the dict handed to
    [insert_patent] lacks any of the twelve keys it does not set itself
    (for instance [summary_text]), the call raises [KeyError] before any
    statement reaches the store: tables and trace are as they were. *)
Theorem insert_patent_missing_key E patent_data search_topic st c :
  c ∈ columns -> c ≠ "search_topic" -> patent_data !! c = None ->
  insert_patent E patent_data search_topic st = (Raise KeyError, st).
Proof. apply insert_patent_missing. Qed.

Lemma insert_patent_raise E patent_data search_topic st r st' :
  insert_patent E patent_data search_topic st = (r, st') ->
  committed st' = committed st
  /\ (forall e, r = Raise e -> working st' = working st)
  /\ (exists evs, trace st' = trace st ++ evs
                  /\ count is_request evs = 0%nat
                  /\ (count is_execute evs <= 1)%nat).
Proof.
  rewrite insert_patent_eq.
  assert (Hnil : exists evs, trace st = trace st ++ evs
                             /\ count is_request evs = 0%nat
                             /\ (count is_execute evs <= 1)%nat).
  { exists []. rewrite app_nil_r. cbn. auto with lia. }
  assert (Hone : forall new,
            exists evs, trace st ++ [Executed new] = trace st ++ evs
                        /\ count is_request evs = 0%nat
                        /\ (count is_execute evs <= 1)%nat).
  { intros new. exists [Executed new]. cbn. auto with lia. }
  case_bool_decide; [|intros [= <- <-]; auto].
  rewrite execute_eq.
  destruct (bind_parameters _) as [new|e0]; [|intros [= <- <-]; auto].
  destruct (execute_fault E (trace st) new);
    [intros [= <- <-]; cbn; auto|].
  destruct (primary_key new); intros [= <- <-]; cbn; auto.
  split; [reflexivity|]. split; [discriminate|]. apply Hone.
Qed.

(** X11.  [insert_patent] commits nothing and fails cleanly.  Whatever it
    returns or raises, the committed table is as before, no request goes
    out and at most one statement is sent; when it raises, the table seen
    by the transaction is unchanged as well. *)
Theorem insert_patent_fails_cleanly E patent_data search_topic st r st' :
  insert_patent E patent_data search_topic st = (r, st') ->
  committed st' = committed st
  /\ (forall e, r = Raise e -> working st' = working st)
  /\ (exists evs, trace st' = trace st ++ evs
                  /\ count is_request evs = 0%nat
                  /\ (count is_execute evs <= 1)%nat).
Proof. apply insert_patent_raise. Qed.

Lemma insert_patent_new_row_witness :
  let E := Scenario.world (Scenario.reply (VDict Scenario.body3)) "" in
  let record := Scenario.parameters "P1" "First title" (VStr "Text A") in
  exists new,
    working (snd (insert_patent E record "wind" Scenario.empty_store)) !! "P1"
    = Some new
    /\ new !! "patent_title" = Some (VStr "First title")
    /\ new !! "summary_text" = Some (VStr "Text A")
    /\ new !! "search_topic" = Some (VStr "wind")
    /\ size (working (snd (insert_patent E record "wind"
                             Scenario.empty_store))) = 1%nat.
Proof.
  intros E record.
  destruct (insert_patent_new_row E record "wind" Scenario.empty_store
              (snd (insert_patent E record "wind" Scenario.empty_store)) "P1")
    as (new & Hl & Hc & Ht & _ & _ & Hs).
  - vm_compute. reflexivity.
  - reflexivity.
  - reflexivity.
  - assert (H1 : "patent_title" ∈ columns) by (repeat constructor).
    assert (H2 : "summary_text" ∈ columns) by (repeat constructor).
    exists new. split; [exact Hl|].
    split; [rewrite (Hc _ H1) by discriminate; reflexivity|].
    split; [rewrite (Hc _ H2) by discriminate; reflexivity|].
    split; [exact Ht|exact Hs].
Defined.

Lemma insert_patent_missing_key_witness :
  insert_patent (Scenario.world (Scenario.reply (VDict Scenario.body3)) "")
    (normalized Scenario.no_repr [("patent_id", VStr "P1")] [] [] [] [])
    "wind" Scenario.empty_store
  = (Raise KeyError, Scenario.empty_store).
Proof.
  apply (insert_patent_missing_key _ _ _ _ "summary_text").
  - repeat constructor.
  - discriminate.
  - reflexivity.
Defined.

Lemma insert_patent_fails_cleanly_witness :
  let E := Scenario.world (Scenario.reply (VDict Scenario.body3)) "P1" in
  let record := Scenario.parameters "P1" "Second title" (VStr "Text A") in
  let out := insert_patent E record "solar" Scenario.store_with_P1 in
  fst out = Raise DatabaseError
  /\ committed (snd out) = committed Scenario.store_with_P1
  /\ working (snd out) = working Scenario.store_with_P1.
Proof.
  intros E record out.
  assert (H : out = (Raise DatabaseError, snd out)).
  { vm_compute. reflexivity. }
  destruct (insert_patent_fails_cleanly E record "solar"
              Scenario.store_with_P1 _ _ H) as (Hc & Hw & _).
  split; [rewrite H; reflexivity|]. split; [exact Hc|].
  exact (Hw DatabaseError eq_refl).
Defined.

(* ===================================================================== *)
(** ** Invariants of a run *)
(* ===================================================================== *)

(** A computation keeps [I] when every state it can leave, whether it
    returns or raises, satisfies [I] if the initial one did. *)
Definition preserves (I : state -> Prop) {A} (m : M A) : Prop :=
  forall st r st', m st = (r, st') -> I st -> I st'.

Section Preserves.

Variable I : state -> Prop.

Lemma preserves_lift {A} (r : result A) : preserves I (lift r).
Proof. intros st r' st' [= _ <-]. auto. Qed.

Lemma preserves_ret {A} (a : A) : preserves I (ret a).
Proof. intros st r' st' [= _ <-]. auto. Qed.

Lemma preserves_bind {A B} (m : M A) (k : A -> M B) :
  preserves I m -> (forall a, preserves I (k a)) -> preserves I (bind m k).
Proof.
  intros Hm Hk st r st' H Hst. unfold bind in H.
  destruct (m st) as [[a|e] st1] eqn:Hrun.
  - exact (Hk a _ _ _ H (Hm _ _ _ Hrun Hst)).
  - injection H as _ <-. exact (Hm _ _ _ Hrun Hst).
Qed.

Lemma preserves_try_except {A} (body : M A) catches handler :
  preserves I body -> (forall e, preserves I (handler e)) ->
  preserves I (try_except body catches handler).
Proof.
  intros Hb Hh st r st' H Hst. unfold try_except in H.
  destruct (body st) as [[a|e] st1] eqn:Hrun.
  - injection H as _ <-. exact (Hb _ _ _ Hrun Hst).
  - destruct (catches e).
    + exact (Hh e _ _ _ H (Hb _ _ _ Hrun Hst)).
    + injection H as _ <-. exact (Hb _ _ _ Hrun Hst).
Qed.

Lemma preserves_for_each {A B} (body : B -> A -> M B) xs :
  (forall acc x, preserves I (body acc x)) ->
  forall acc, preserves I (for_each body xs acc).
Proof.
  intros Hbody. induction xs as [|x xs IH]; intros acc; cbn [for_each].
  - apply preserves_ret.
  - apply preserves_bind; [apply Hbody|exact IH].
Qed.

Lemma preserves_if {A} (b : bool) (m1 m2 : M A) :
  preserves I m1 -> preserves I m2 -> preserves I (if b then m1 else m2).
Proof. destruct b; auto. Qed.

End Preserves.

(** The state with [t] as the table of the open transaction. *)
Definition with_working (st : state) (t : table) : state :=
  {| committed := committed st; working := t; trace := trace st |}.

(** The state once the open transaction is committed, and once it is
    dropped. *)
Definition all_committed (st : state) : state :=
  {| committed := working st; working := working st; trace := trace st |}.

Definition all_dropped (st : state) : state :=
  {| committed := committed st; working := committed st; trace := trace st |}.

(** The requests of the client, and the other calls that a run traces. *)
Inductive client_request (cfg : config) : request -> Prop :=
| is_search query max_results :
    client_request cfg (search_request cfg query max_results)
| is_summary patent_id :
    client_request cfg (summary_request cfg patent_id).

Inductive control_event : event -> Prop :=
| control_commit : control_event Commit
| control_rollback : control_event Rollback
| control_closed : control_event Closed
| control_total n : control_event (Printed_total n).

(** A property of states that every step of a run keeps: sending a
    request of the client, sending a statement with bound parameters,
    applying it to the open transaction, committing, rolling back, and
    tracing a control call. *)
Record stable (cfg : config) (I : state -> Prop) : Prop := {
  stable_request :
    forall st req, client_request cfg req -> I st -> I (sent st req);
  stable_statement :
    forall st patent_data new,
      bind_parameters patent_data = Ok new -> I st ->
      I (logged st (Executed new));
  stable_upsert :
    forall st patent_data new id,
      bind_parameters patent_data = Ok new -> primary_key new = Ok id ->
      I st -> I (with_working st (upsert id new (working st)));
  stable_commit : forall st, I st -> I (all_committed st);
  stable_rollback : forall st, I st -> I (all_dropped st);
  stable_control :
    forall st e, control_event e -> I st -> I (logged st e)
}.

Section Stable.

Variable py_repr : value -> string.
Variable cfg : config.
Variable E : env.
Variable I : state -> Prop.
Hypothesis HI : stable cfg I.

Lemma search_patents_preserves query max_results :
  preserves I (search_patents cfg E query max_results).
Proof.
  intros st r st' H Hst. apply search_patents_state in H. subst st'.
  apply (stable_request _ _ HI); [constructor|exact Hst].
Qed.

Lemma fetch_patent_summary_preserves patent_id :
  preserves I (fetch_patent_summary cfg E patent_id).
Proof.
  intros st r st' H Hst. rewrite fetch_patent_summary_eq in H.
  injection H as _ <-.
  apply (stable_request _ _ HI); [constructor|exact Hst].
Qed.

Lemma execute_preserves patent_data : preserves I (execute E patent_data).
Proof.
  intros st r st' H Hst. rewrite execute_eq in H.
  destruct (bind_parameters patent_data) as [new|e] eqn:Hnew.
  2:{ injection H as _ <-. exact Hst. }
  pose proof (stable_statement _ _ HI st _ _ Hnew Hst) as Hsent.
  destruct (execute_fault E (trace st) new).
  { injection H as _ <-. exact Hsent. }
  destruct (primary_key new) as [id|e] eqn:Hid.
  2:{ injection H as _ <-. exact Hsent. }
  injection H as _ <-.
  exact (stable_upsert _ _ HI _ _ _ _ Hnew Hid Hsent).
Qed.

Lemma insert_patent_preserves patent_data search_topic :
  preserves I (insert_patent E patent_data search_topic).
Proof.
  intros st r st' H Hst. rewrite insert_patent_eq in H.
  case_bool_decide.
  - exact (execute_preserves _ _ _ _ H Hst).
  - injection H as _ <-. exact Hst.
Qed.

Lemma commit_preserves : preserves I (commit E).
Proof.
  intros st r st' H Hst. rewrite commit_eq in H.
  pose proof (stable_control _ _ HI st Commit control_commit Hst) as Hlog.
  destruct (commit_fault E (trace st)); injection H as _ <-; [exact Hlog|].
  exact (stable_commit _ _ HI _ Hlog).
Qed.

Lemma rollback_preserves : preserves I (rollback E).
Proof.
  intros st r st' H Hst. rewrite rollback_eq in H.
  pose proof (stable_control _ _ HI st Rollback control_rollback Hst) as Hlog.
  destruct (rollback_fault E (trace st)); injection H as _ <-; [exact Hlog|].
  exact (stable_rollback _ _ HI _ Hlog).
Qed.

Lemma process_patent_preserves topic_name inserted_count patent :
  preserves I (process_patent py_repr cfg E topic_name inserted_count patent).
Proof.
  unfold process_patent.
  repeat first
    [ apply fetch_patent_summary_preserves
    | apply insert_patent_preserves
    | apply commit_preserves
    | apply rollback_preserves
    | apply preserves_lift
    | apply preserves_ret
    | apply preserves_if
    | apply preserves_try_except; [|intros ?]
    | apply preserves_bind; [|intros ?] ].
Qed.

Lemma process_topic_preserves topic_config :
  preserves I (process_topic py_repr cfg E topic_config).
Proof.
  cbv beta zeta delta [process_topic].
  apply preserves_bind; [apply search_patents_preserves|intros patents].
  apply preserves_if; [apply preserves_ret|].
  apply preserves_bind; [apply preserves_lift|intros items].
  apply preserves_bind; [|intros ?; apply preserves_ret].
  apply preserves_for_each. intros acc x. apply process_patent_preserves.
Qed.

Lemma process_topics_preserves topics :
  preserves I (process_topics py_repr cfg E topics).
Proof.
  unfold process_topics. apply preserves_for_each. intros acc topic.
  apply preserves_bind; [apply process_topic_preserves|].
  intros ?. apply preserves_ret.
Qed.

Lemma connect_preserves : preserves I (connect E).
Proof.
  intros st r st' H Hst. unfold connect in H.
  destruct (connect_fault E) as [e|].
  - destruct (is_Exception e); injection H as _ <-; exact Hst.
  - injection H as _ <-. exact (stable_rollback _ _ HI _ Hst).
Qed.

Lemma main_preserves topics : preserves I (main py_repr cfg E topics).
Proof.
  unfold main.
  apply preserves_bind; [apply connect_preserves|intros _].
  apply preserves_bind; [apply process_topics_preserves|intros total].
  apply preserves_bind; [|intros _].
  - intros st r st' [= _ <-] Hst.
    exact (stable_control _ _ HI st Closed control_closed Hst).
  - intros st r st' [= _ <-] Hst.
    exact (stable_control _ _ HI st _ (control_total total) Hst).
Qed.

End Stable.

Lemma main_from_connected py_repr cfg E I topics st r st' :
  stable cfg I ->
  main py_repr cfg E topics st = (r, st') ->
  I (all_dropped st) ->
  I st' \/ st' = st.
Proof.
  intros HI H Hst.
  destruct (connect_fault E) as [e|] eqn:Hc.
  - right. unfold main, bind at 1, connect in H. rewrite Hc in H.
    destruct (is_Exception e); inversion H; reflexivity.
  - left. apply (main_preserves py_repr cfg E I HI topics (all_dropped st) r);
      [|exact Hst].
    rewrite <- H. unfold main, bind at 1 3, connect. rewrite Hc. reflexivity.
Qed.

(** *** Rows are well formed *)

(** A row stored under [id] has that id in its [patent_id] column and
    exactly the columns of the statement. *)
Definition row_wf (id : string) (r : row) : Prop :=
  r !! "patent_id" = Some (VStr id) /\ dom r = list_to_set columns.

Definition table_wf (t : table) : Prop :=
  forall id r, t !! id = Some r -> row_wf id r.

Definition store_wf (st : state) : Prop :=
  table_wf (committed st) /\ table_wf (working st).

Lemma bind_parameters_dom parameters new :
  bind_parameters parameters = Ok new -> dom new = list_to_set columns.
Proof.
  intros H. apply set_eq. intros c.
  rewrite elem_of_dom, elem_of_list_to_set. split.
  - intros [v Hv]. exact (bind_parameters_columns _ _ _ _ H Hv).
  - intros Hc. destruct (bind_parameters_lookup _ _ _ H Hc) as [-> Hs].
    exact Hs.
Qed.

Lemma primary_key_ok new id :
  primary_key new = Ok id -> new !! "patent_id" = Some (VStr id).
Proof.
  unfold primary_key.
  destruct (new !! "patent_id") as [[| | | |s| |]|]; try discriminate.
  intros [= ->]. reflexivity.
Qed.

Lemma set_excluded_dom c (new stored : row) :
  c ∈ dom stored -> dom (set_excluded c new stored) = dom stored.
Proof.
  intros Hc. unfold set_excluded. rewrite dom_insert_L.
  apply set_eq. intros x. rewrite elem_of_union, elem_of_singleton.
  split; [intros [->|H]; assumption|auto].
Qed.

Lemma upsert_wf parameters new id t :
  bind_parameters parameters = Ok new -> primary_key new = Ok id ->
  table_wf t -> table_wf (upsert id new t).
Proof.
  intros Hnew Hid Ht id' r. unfold upsert.
  destruct (t !! id) as [stored|] eqn:Hl.
  - destruct (decide (id = id')) as [<-|Hne].
    + rewrite lookup_insert_eq. intros [= <-].
      destruct (Ht _ _ Hl) as [Hp Hd]. split.
      * unfold set_excluded. rewrite !lookup_insert_ne by discriminate.
        exact Hp.
      * assert (Hs : "summary_text" ∈ dom stored).
        { rewrite Hd. apply elem_of_list_to_set. repeat constructor. }
        assert (Hs' : "search_topic" ∈ dom stored).
        { rewrite Hd. apply elem_of_list_to_set. repeat constructor. }
        rewrite set_excluded_dom; rewrite set_excluded_dom; auto.
    + rewrite lookup_insert_ne by exact Hne. apply Ht.
  - destruct (decide (id = id')) as [<-|Hne].
    + rewrite lookup_insert_eq. intros [= <-]. split.
      * exact (primary_key_ok _ _ Hid).
      * exact (bind_parameters_dom _ _ Hnew).
    + rewrite lookup_insert_ne by exact Hne. apply Ht.
Qed.

Lemma store_wf_stable cfg : stable cfg store_wf.
Proof.
  split; unfold store_wf; cbn [committed working sent logged with_working
                                all_committed all_dropped]; try tauto.
  intros st parameters new id Hnew Hid [Hc Hw].
  split; [exact Hc|]. exact (upsert_wf _ _ _ _ Hnew Hid Hw).
Qed.

(** X12.  The table stays well formed.  If every committed row is stored
    under the id of its [patent_id] column and has exactly the thirteen
    columns of the statement, the same holds of the committed table after
    [main], for any list of topics and any behaviour of the API and of the
    store, whether [main] returns or raises. *)
Theorem main_keeps_table_well_formed py_repr cfg E topics st r st' :
  main py_repr cfg E topics st = (r, st') ->
  table_wf (committed st) ->
  table_wf (committed st').
Proof.
  intros H Hwf.
  destruct (main_from_connected py_repr cfg E store_wf topics st r st'
              (store_wf_stable cfg) H) as [[Hc _]| ->].
  - split; exact Hwf.
  - exact Hc.
  - exact Hwf.
Qed.

(** *** Rows are kept *)

(** [r] has the values of [r0] in every column besides the two that the
    statement refreshes. *)
Definition same_frame (r0 r : row) : Prop :=
  forall c, c ≠ "summary_text" -> c ≠ "search_topic" -> r !! c = r0 !! c.

Definition keeps_row (id : string) (r0 : row) (t : table) : Prop :=
  exists r, t !! id = Some r /\ same_frame r0 r.

Definition store_keeps_row (id : string) (r0 : row) (st : state) : Prop :=
  keeps_row id r0 (committed st) /\ keeps_row id r0 (working st).

Lemma upsert_keeps_row id0 r0 id new t :
  keeps_row id0 r0 t -> keeps_row id0 r0 (upsert id new t).
Proof.
  intros (r & Hl & Hf). destruct (decide (id0 = id)) as [->|Hne].
  - rewrite (upsert_conflict _ _ _ _ Hl). eexists.
    split; [apply lookup_insert_eq|].
    intros c H1 H2. unfold set_excluded.
    rewrite !lookup_insert_ne by congruence. apply Hf; assumption.
  - exists r. split; [|exact Hf].
    rewrite upsert_other by exact Hne. exact Hl.
Qed.

Lemma store_keeps_row_stable cfg id r0 : stable cfg (store_keeps_row id r0).
Proof.
  split; unfold store_keeps_row;
    cbn [committed working sent logged with_working all_committed
           all_dropped]; try tauto.
  intros st parameters new id' _ _ [Hc Hw].
  split; [exact Hc|]. apply upsert_keeps_row. exact Hw.
Qed.

(** X13.  No row is lost and its descriptive columns never change.  A row
    that is committed before [main] is still committed afterwards under
    the same id, with the same value in every column except
    [summary_text] and [search_topic], for any topics and any behaviour of
    the API and of the store, whether [main] returns or raises. *)
Theorem main_keeps_rows py_repr cfg E topics st r st' id r0 :
  main py_repr cfg E topics st = (r, st') ->
  committed st !! id = Some r0 ->
  exists r1,
    committed st' !! id = Some r1
    /\ forall c, c ≠ "summary_text" -> c ≠ "search_topic" ->
                 r1 !! c = r0 !! c.
Proof.
  intros H Hl.
  assert (Hk : keeps_row id r0 (committed st)).
  { exists r0. split; [exact Hl|]. intros c _ _. reflexivity. }
  destruct (main_from_connected py_repr cfg E (store_keeps_row id r0)
              topics st r st' (store_keeps_row_stable cfg id r0) H)
    as [[Hc _]| ->].
  - split; exact Hk.
  - exact Hc.
  - exact Hk.
Qed.

(** *** What a run sends *)

(** A request as the client makes them: the API key in the header, a
    timeout of 30, one of the two endpoints. *)
Definition request_ok (cfg : config) (req : request) : Prop :=
  headers req = [("X-Api-Key", API_KEY cfg)]
  /\ timeout req = 30
  /\ (url req = API_BASE_URL cfg +:+ "/patent/"
      \/ url req = API_BASE_URL cfg +:+ "/g_brf_sum_text/").

(** A call as a run makes them: a request of the client, or a statement
    that carries exactly the thirteen columns. *)
Definition event_ok (cfg : config) (e : event) : Prop :=
  match e with
  | Requested req => request_ok cfg req
  | Executed new => dom new = list_to_set columns
  | _ => True
  end.

(** The trace extends [tr] by calls that are all as a run makes them. *)
Definition extends_trace (cfg : config) (tr : list event) (st : state)
  : Prop :=
  exists evs, trace st = tr ++ evs /\ Forall (event_ok cfg) evs.

Lemma extends_trace_logged cfg tr st e :
  event_ok cfg e -> extends_trace cfg tr st ->
  extends_trace cfg tr (logged st e).
Proof.
  intros He (evs & Ht & Hf). exists (evs ++ [e]). cbn [logged trace].
  rewrite Ht, <- app_assoc. split; [reflexivity|].
  apply Forall_app. split; [exact Hf|]. repeat constructor. exact He.
Qed.

Lemma extends_trace_stable cfg tr : stable cfg (extends_trace cfg tr).
Proof.
  split; try (intros; assumption).
  - intros st req Hreq H. apply (extends_trace_logged _ _ _ (Requested req));
      [|exact H].
    destruct Hreq; cbn; unfold request_ok; cbn; auto.
  - intros st parameters new Hnew H.
    apply (extends_trace_logged _ _ _ (Executed new)); [|exact H].
    exact (bind_parameters_dom _ _ Hnew).
  - intros st e He H. apply extends_trace_logged; [|exact H].
    destruct He; exact I.
Qed.

(** X14.  What a run sends.  The trace after [main] is the trace before it
    followed by the calls of the run; each request among them carries the
    API key header and a timeout of 30 and goes to [/patent/] or to
    [/g_brf_sum_text/] under the base address, and each statement carries
    exactly the thirteen columns.  This holds for any topics and any
    behaviour of the API and of the store, whether [main] returns or
    raises. *)
Theorem main_calls_are_well_formed py_repr cfg E topics st r st' :
  main py_repr cfg E topics st = (r, st') ->
  exists evs,
    trace st' = trace st ++ evs
    /\ Forall (event_ok cfg) evs.
Proof.
  intros H.
  assert (H0 : extends_trace cfg (trace st) (all_dropped st)).
  { exists []. cbn. rewrite app_nil_r. auto. }
  destruct (main_from_connected py_repr cfg E (extends_trace cfg (trace st))
              topics st r st' (extends_trace_stable cfg (trace st)) H H0)
    as [Hx| ->].
  - exact Hx.
  - exists []. rewrite app_nil_r. auto.
Qed.

Lemma main_keeps_table_well_formed_witness :
  let E := Scenario.world (Scenario.reply (VDict Scenario.body3)) "P2" in
  let run := main Scenario.no_repr Scenario.cfg E
               [Scenario.solar; Scenario.wind] Scenario.empty_store in
  table_wf (committed (snd run)).
Proof.
  intros E run.
  apply (main_keeps_table_well_formed Scenario.no_repr Scenario.cfg E
           [Scenario.solar; Scenario.wind] Scenario.empty_store
           (fst run) (snd run)).
  - apply surjective_pairing.
  - intros id r Hl. cbn in Hl. rewrite lookup_empty in Hl. discriminate.
Defined.

(** Record P1 as stored under topic wind, and a store that holds it. *)
Definition row_P1 : row :=
  <["search_topic" := VStr "wind"]>
    (Scenario.parameters "P1" "First title" VNone).

Definition store_committed_P1 : state :=
  {| committed := {["P1" := row_P1]};
     working := {["P1" := row_P1]};
     trace := [] |}.

Lemma main_keeps_rows_witness :
  let E := Scenario.world (Scenario.reply (VDict Scenario.body3)) "P2" in
  let run := main Scenario.no_repr Scenario.cfg E [Scenario.solar]
               store_committed_P1 in
  exists r1,
    committed (snd run) !! "P1" = Some r1
    /\ r1 !! "patent_title" = Some (VStr "First title")
    /\ r1 !! "raw_data" = row_P1 !! "raw_data".
Proof.
  intros E run.
  destruct (main_keeps_rows Scenario.no_repr Scenario.cfg E [Scenario.solar]
              store_committed_P1 (fst run) (snd run) "P1" row_P1)
    as (r1 & H1 & Hf).
  - apply surjective_pairing.
  - apply lookup_singleton_eq.
  - exists r1. split; [exact H1|].
    split; [rewrite Hf by discriminate; reflexivity|].
    apply Hf; discriminate.
Defined.

Lemma main_calls_are_well_formed_witness :
  let E := Scenario.world (Scenario.reply (VDict Scenario.body3)) "P2" in
  let run := main Scenario.no_repr Scenario.cfg E [Scenario.solar]
               Scenario.empty_store in
  exists evs,
    trace (snd run) = evs /\ Forall (event_ok Scenario.cfg) evs.
Proof.
  intros E run.
  destruct (main_calls_are_well_formed Scenario.no_repr Scenario.cfg E
              [Scenario.solar] Scenario.empty_store (fst run) (snd run))
    as (evs & Ht & Hf).
  - apply surjective_pairing.
  - exists evs. split; [exact Ht|exact Hf].
Defined.

(* ===================================================================== *)
(** ** One record, step by step *)
(* ===================================================================== *)

(** The handler of the [try] block, run in state [st0]: the rollback, then
    the count as it was. *)
Definition on_failure (E : env) (inserted_count : Z) (st0 : state)
  : result Z * state :=
  match rollback_fault E (trace st0) with
  | Some e => (Raise e, logged st0 Rollback)
  | None => (Ok inserted_count, all_dropped (logged st0 Rollback))
  end.

(** The faults of the statement and of the commit are errors that
    [except Exception] catches. *)
Definition faults_caught (E : env) : Prop :=
  (forall tr r e, execute_fault E tr r = Some e -> is_Exception e = true)
  /\ (forall tr e, commit_fault E tr = Some e -> is_Exception e = true).

Lemma try_upsert_eq E patent_data topic_name inserted_count st new :
  faults_caught E ->
  complete patent_data ->
  bind_parameters (<["search_topic" := VStr topic_name]> patent_data)
  = Ok new ->
  try_except
    (_ <- insert_patent E patent_data topic_name ;;
     _ <- commit E ;;
     ret (inserted_count + 1))%M
    is_Exception
    (fun _ => _ <- rollback E ;; ret inserted_count)%M st
  = match execute_fault E (trace st) new with
    | Some _ => on_failure E inserted_count (refused st new)
    | None =>
        match primary_key new with
        | Raise _ => on_failure E inserted_count (refused st new)
        | Ok id =>
            match commit_fault E (trace st ++ [Executed new]) with
            | Some _ =>
                on_failure E inserted_count
                  (logged (executed st id new) Commit)
            | None =>
                (Ok (inserted_count + 1),
                 all_committed (logged (executed st id new) Commit))
            end
        end
    end.
Proof.
  intros [Hx Hc] Hcomplete Hnew.
  assert (Hhandler : forall st0,
    (_ <- rollback E ;; ret inserted_count)%M st0
    = on_failure E inserted_count st0).
  { intros st0. unfold bind, on_failure. rewrite rollback_eq.
    destruct (rollback_fault E (trace st0)); reflexivity. }
  unfold try_except, bind at 1.
  rewrite insert_patent_eq. rewrite bool_decide_eq_true_2.
  2:{ repeat split; apply Hcomplete; try discriminate; repeat constructor. }
  rewrite execute_eq, Hnew.
  destruct (execute_fault E (trace st) new) as [e|] eqn:Hf.
  { rewrite (Hx _ _ _ Hf). apply Hhandler. }
  destruct (primary_key new) as [id|e] eqn:Hk.
  2:{ assert (e = DatabaseError) as ->.
      { unfold primary_key in Hk.
        destruct (new !! "patent_id") as [[]|]; congruence. }
      cbn [is_Exception]. apply Hhandler. }
  unfold bind. rewrite commit_eq. cbn [executed trace].
  destruct (commit_fault E _) as [e|] eqn:Hcf.
  { rewrite (Hc _ _ Hcf). apply Hhandler. }
  reflexivity.
Qed.

(** A well-shaped hit reaches the [try] block with its normalized record
    and the summary fetched for it. *)
Lemma process_patent_shaped
    py_repr cfg E topic_name inserted_count kv
    assignees cpcs wipos inventors v st :
  entries kv "assignees" assignees ->
  entries kv "cpc_current" cpcs ->
  entries kv "wipo" wipos ->
  entries kv "inventors" inventors ->
  text_or_missing (assoc "patent_title" kv) ->
  summary_of (summary_reply cfg E (field "patent_id" kv) st) v ->
  text_or_none v ->
  process_patent py_repr cfg E topic_name inserted_count (VDict kv) st
  = try_except
      (_ <- insert_patent E
              (<["summary_text" := v]>
                 (normalized py_repr kv assignees cpcs wipos inventors))
              topic_name ;;
       _ <- commit E ;;
       ret (inserted_count + 1))%M
      is_Exception
      (fun _ => _ <- rollback E ;; ret inserted_count)%M
      (sent st (summary_request cfg (field "patent_id" kv))).
Proof.
  intros Ha Hc Hw Hi Ht Hv Htext. unfold process_patent.
  rewrite (bind_lift _ (field "patent_id" kv)) by reflexivity.
  erewrite bind_lift by reflexivity.
  rewrite (bind_lift _ tt).
  2:{ simpl. destruct (assoc "patent_title" kv) as [[]|]; simpl in Ht;
        try contradiction; reflexivity. }
  erewrite bind_lift by (apply extract_shaped; eassumption).
  erewrite bind_run by (apply fetch_patent_summary_on; exact Hv).
  erewrite (bind_run _ _ _ tt); [reflexivity|].
  destruct v; simpl in Htext; try contradiction; [reflexivity|].
  simpl. destruct (negb _); reflexivity.
Qed.

Lemma bind_lift_raise {A B} (r : result A) (e : exn) (k : A -> M B) st :
  r = Raise e -> bind (lift r) k st = (Raise e, st).
Proof. intros ->. reflexivity. Qed.

Lemma process_patent_stores py_repr cfg E topic_name inserted_count kv id v st :
  well_shaped_hit (VDict kv) ->
  assoc "patent_id" kv = Some (VStr id) ->
  summary_of (summary_reply cfg E (VStr id) st) v ->
  text_or_none v ->
  (forall tr r, execute_fault E tr r = None) ->
  (forall tr, commit_fault E tr = None) ->
  exists st' r,
    process_patent py_repr cfg E topic_name inserted_count (VDict kv) st
    = (Ok (inserted_count + 1), st')
    /\ committed st' !! id = Some r
    /\ working st' = committed st'
    /\ r !! "summary_text" = Some v
    /\ r !! "search_topic" = Some (VStr topic_name)
    /\ (working st !! id = None -> r !! "raw_data" = Some (VDict kv))
    /\ (forall id', id' ≠ id -> committed st' !! id' = working st !! id').
Proof.
  intros Hshape Hid Hv Htext Hx Hc.
  inversion Hshape as [kv' assignees cpcs wipos inventors Ha Hcp Hw Hi Ht Heq].
  subst kv'.
  assert (Hfield : field "patent_id" kv = VStr id).
  { unfold field. rewrite Hid. reflexivity. }
  rewrite (process_patent_shaped py_repr cfg E topic_name inserted_count kv
             assignees cpcs wipos inventors v st Ha Hcp Hw Hi Ht)
    by (rewrite ?Hfield; assumption).
  set (pd := <["summary_text" := v]>
               (normalized py_repr kv assignees cpcs wipos inventors)).
  assert (Hcomplete : complete pd) by apply normalized_complete.
  destruct (complete_bind_parameters pd topic_name Hcomplete) as [new Hnew].
  assert (Hcaught : faults_caught E).
  { split; intros; rewrite ?Hx, ?Hc in *; discriminate. }
  rewrite (try_upsert_eq E pd topic_name inserted_count _ new Hcaught
             Hcomplete Hnew).
  rewrite Hx, Hc.
  assert (Hcol : forall c, c ∈ columns ->
            new !! c = (<["search_topic" := VStr topic_name]> pd) !! c).
  { intros c Hin. exact (proj1 (bind_parameters_lookup _ _ _ Hnew Hin)). }
  assert (Hpid : new !! "patent_id" = Some (VStr id)).
  { rewrite (Hcol "patent_id") by repeat constructor.
    transitivity (Some (field "patent_id" kv)); [reflexivity|].
    rewrite Hfield. reflexivity. }
  assert (Hsum : new !! "summary_text" = Some v).
  { rewrite (Hcol "summary_text") by repeat constructor. reflexivity. }
  assert (Htopic : new !! "search_topic" = Some (VStr topic_name)).
  { rewrite (Hcol "search_topic") by repeat constructor. reflexivity. }
  assert (Hraw : new !! "raw_data" = Some (VDict kv)).
  { rewrite (Hcol "raw_data") by repeat constructor. reflexivity. }
  unfold primary_key. rewrite Hpid.
  destruct (working st !! id) as [stored|] eqn:Hl.
  - eexists _, _. split; [reflexivity|].
    cbn [all_committed logged executed sent committed working].
    rewrite (upsert_conflict _ _ _ _ Hl).
    split; [apply lookup_insert_eq|]. split; [reflexivity|].
    unfold set_excluded. rewrite Hsum, Htopic. cbn [default].
    split; [rewrite lookup_insert_ne by discriminate; apply lookup_insert_eq|].
    split; [apply lookup_insert_eq|]. split; [discriminate|].
    intros id' Hne. apply lookup_insert_ne. congruence.
  - eexists _, _. split; [reflexivity|].
    cbn [all_committed logged executed sent committed working].
    unfold upsert. rewrite Hl.
    split; [apply lookup_insert_eq|]. split; [reflexivity|].
    split; [exact Hsum|]. split; [exact Htopic|]. split; [auto|].
    intros id' Hne. apply lookup_insert_ne. congruence.
Qed.

(** X15.  What a record leaves in the table.  For a well-shaped hit with a
    string id, an expected summary reply and a store without fault, the
    loop body of [process_topic] adds one to the count and commits: the
    committed table then holds a row under the hit's id whose
    [summary_text] is the summary just fetched and whose [search_topic] is
    the topic's name; if the id was new, its [raw_data] is the hit itself;
    every other row is as the transaction had it, and nothing is left
    pending. *)
Theorem process_topic_record_is_stored
    py_repr cfg E topic_name inserted_count kv id v st :
  well_shaped_hit (VDict kv) ->
  assoc "patent_id" kv = Some (VStr id) ->
  summary_of (summary_reply cfg E (VStr id) st) v ->
  text_or_none v ->
  (forall tr r, execute_fault E tr r = None) ->
  (forall tr, commit_fault E tr = None) ->
  exists st' r,
    process_patent py_repr cfg E topic_name inserted_count (VDict kv) st
    = (Ok (inserted_count + 1), st')
    /\ committed st' !! id = Some r
    /\ working st' = committed st'
    /\ r !! "summary_text" = Some v
    /\ r !! "search_topic" = Some (VStr topic_name)
    /\ (working st !! id = None -> r !! "raw_data" = Some (VDict kv))
    /\ (forall id', id' ≠ id -> committed st' !! id' = working st !! id').
Proof. apply process_patent_stores. Qed.

Lemma process_topic_first_hit py_repr cfg E topic_config st hit rest st1 e st' :
  search_patents cfg E (query topic_config) (max_patents topic_config) st
  = (Ok (VList (hit :: rest)), st1) ->
  process_patent py_repr cfg E (name topic_config) 0 hit st1 = (Raise e, st') ->
  process_topic py_repr cfg E topic_config st = (Raise e, st').
Proof.
  intros Hs Hp. cbv beta zeta delta [process_topic].
  rewrite (bind_run _ _ _ _ _ Hs). cbn [truthy negb iterate].
  rewrite (bind_lift _ (hit :: rest)) by reflexivity.
  apply bind_raise. cbn [for_each]. apply bind_raise. exact Hp.
Qed.

Lemma process_topic_rollback_fails
    py_repr cfg E topic_config st hit rest st1 e e' :
  summary_replies_expected cfg E ->
  faults_caught E ->
  search_patents cfg E (query topic_config) (max_patents topic_config) st
  = (Ok (VList (hit :: rest)), st1) ->
  well_shaped_hit hit ->
  (forall tr r, execute_fault E tr r = Some e) ->
  (forall tr, rollback_fault E tr = Some e') ->
  exists st' evs,
    process_topic py_repr cfg E topic_config st = (Raise e', st')
    /\ trace st' = trace st1 ++ evs
    /\ count is_request evs = 1%nat
    /\ count is_execute evs = 1%nat
    /\ count is_rollback evs = 1%nat
    /\ committed st' = committed st1
    /\ working st' = working st1.
Proof.
  intros Hreplies Hcaught Hs Hshape Hx Hr.
  destruct Hshape as [kv assignees cpcs wipos inventors Ha Hcp Hw Hi Ht].
  destruct (Hreplies (trace st1) (field "patent_id" kv)) as (v & Hv & Htext).
  set (pd := <["summary_text" := v]>
               (normalized py_repr kv assignees cpcs wipos inventors)).
  destruct (complete_bind_parameters pd (name topic_config)
              (normalized_complete _ _ _ _ _ _ _)) as [new Hnew].
  eexists _, [Requested (summary_request cfg (field "patent_id" kv));
              Executed new; Rollback].
  split.
  { apply (process_topic_first_hit _ _ _ _ _ _ _ _ _ _ Hs).
    rewrite (process_patent_shaped py_repr cfg E (name topic_config) 0 kv
               assignees cpcs wipos inventors v st1 Ha Hcp Hw Hi Ht Hv Htext).
    rewrite (try_upsert_eq E pd (name topic_config) 0 _ new Hcaught
               (normalized_complete _ _ _ _ _ _ _) Hnew).
    rewrite Hx. unfold on_failure. rewrite Hr. reflexivity. }
  cbn [logged refused sent trace committed working].
  rewrite <- !app_assoc. repeat split.
Qed.

(** X16.  A rollback that fails ends the topic.  The handler of the [try]
    block is not itself protected: when the statement for the first hit is
    refused and the rollback raises [e'], [process_topic] raises [e']; one
    summary request, one statement and one rollback were made, the later
    hits are not looked at, and the tables are as the search left them. *)
Theorem process_topic_rollback_failure_aborts
    py_repr cfg E topic_config st hit rest st1 e e' :
  summary_replies_expected cfg E ->
  faults_caught E ->
  search_patents cfg E (query topic_config) (max_patents topic_config) st
  = (Ok (VList (hit :: rest)), st1) ->
  well_shaped_hit hit ->
  (forall tr r, execute_fault E tr r = Some e) ->
  (forall tr, rollback_fault E tr = Some e') ->
  exists st' evs,
    process_topic py_repr cfg E topic_config st = (Raise e', st')
    /\ trace st' = trace st1 ++ evs
    /\ count is_request evs = 1%nat
    /\ count is_execute evs = 1%nat
    /\ count is_rollback evs = 1%nat
    /\ committed st' = committed st1
    /\ working st' = working st1.
Proof. apply process_topic_rollback_fails. Qed.

Lemma process_topic_bad_title py_repr cfg E topic_config st kv rest st1 v :
  search_patents cfg E (query topic_config) (max_patents topic_config) st
  = (Ok (VList (VDict kv :: rest)), st1) ->
  assoc "patent_title" kv = Some v ->
  unsized v ->
  process_topic py_repr cfg E topic_config st = (Raise TypeError, st1).
Proof.
  intros Hs Ht Hv. apply (process_topic_first_hit _ _ _ _ _ _ _ _ _ _ Hs).
  unfold process_patent.
  rewrite (bind_lift _ (field "patent_id" kv)) by reflexivity.
  rewrite (bind_lift _ v) by (cbn [dict_get]; rewrite Ht; reflexivity).
  apply bind_lift_raise.
  destruct v; simpl in Hv; try contradiction; reflexivity.
Qed.

(** X17.  A [null] title ends the topic.  The default ["No title"] stands
    in only for a missing key: when the first hit has ["patent_title"]
    present and [null] (or a number), slicing it for the progress line
    raises [TypeError], which nothing catches; [process_topic] raises it in
    the state the search left, before any summary request or statement,
    and no hit of the topic is stored. *)
Theorem process_topic_null_title_aborts
    py_repr cfg E topic_config st kv rest st1 v :
  search_patents cfg E (query topic_config) (max_patents topic_config) st
  = (Ok (VList (VDict kv :: rest)), st1) ->
  assoc "patent_title" kv = Some v ->
  unsized v ->
  process_topic py_repr cfg E topic_config st = (Raise TypeError, st1).
Proof. apply process_topic_bad_title. Qed.

(* ===================================================================== *)
(** ** More on the run *)
(* ===================================================================== *)

Lemma main_connect_fails py_repr cfg E topics st e :
  connect_fault E = Some e ->
  main py_repr cfg E topics st
  = (Raise (if is_Exception e then SystemExit 1 else e), st).
Proof.
  intros Hc. unfold main, bind at 1, connect. rewrite Hc.
  destruct (is_Exception e); reflexivity.
Qed.

(** X19.  No connection, no run.  When [get_db_connection] raises an
    [Exception], [main] exits with status 1 ([SystemExit(1)]): no topic is
    processed, no request is sent, and the state is untouched. *)
Theorem main_exits_without_connection py_repr cfg E topics st e :
  connect_fault E = Some e ->
  is_Exception e = true ->
  main py_repr cfg E topics st = (Raise (SystemExit 1), st).
Proof.
  intros Hc He. rewrite (main_connect_fails _ _ _ _ _ _ Hc), He. reflexivity.
Qed.

Lemma main_topic_raises py_repr cfg E topics st e st' :
  connect_fault E = None ->
  process_topics py_repr cfg E topics (all_dropped st) = (Raise e, st') ->
  main py_repr cfg E topics st = (Raise e, st').
Proof.
  intros Hc H. unfold main.
  rewrite (bind_run _ _ _ tt (all_dropped st)).
  2:{ unfold connect. rewrite Hc. reflexivity. }
  apply bind_raise. exact H.
Qed.

(** X20.  An exception in a topic ends the run as it is.  [main] has no
    [try] around its loop: when processing the topics raises [e], [main]
    raises [e] in the very state the failing topic left, so the connection
    is not closed and no total is printed. *)
Theorem main_propagates_topic_exception py_repr cfg E topics st e st' :
  connect_fault E = None ->
  process_topics py_repr cfg E topics (all_dropped st) = (Raise e, st') ->
  main py_repr cfg E topics st = (Raise e, st').
Proof. apply main_topic_raises. Qed.

Lemma topic_counts_app py_repr cfg E topics1 topics2 st :
  topic_counts py_repr cfg E (topics1 ++ topics2) st
  = match topic_counts py_repr cfg E topics1 st with
    | (Ok counts1, st1) =>
        match topic_counts py_repr cfg E topics2 st1 with
        | (Ok counts2, st2) => (Ok (counts1 ++ counts2), st2)
        | (Raise e, st2) => (Raise e, st2)
        end
    | (Raise e, st1) => (Raise e, st1)
    end.
Proof.
  revert st. induction topics1 as [|topic topics1 IH]; intros st.
  - cbn. destruct (topic_counts py_repr cfg E topics2 st) as [[c|e] s];
      reflexivity.
  - cbn [app topic_counts].
    destruct (process_topic py_repr cfg E topic st) as [[n|e] s0] eqn:Hp.
    2:{ rewrite !(bind_raise _ _ _ _ _ Hp). reflexivity. }
    rewrite !(bind_run _ _ _ _ _ Hp). unfold bind, ret. rewrite IH.
    destruct (topic_counts py_repr cfg E topics1 s0) as [[c1|e] s1];
      [|reflexivity].
    destruct (topic_counts py_repr cfg E topics2 s1) as [[c2|e] s2];
      reflexivity.
Qed.

Lemma sum_counts_app counts1 counts2 :
  sum_counts (counts1 ++ counts2) = sum_counts counts1 + sum_counts counts2.
Proof.
  induction counts1 as [|n counts1 IH]; cbn; [reflexivity|].
  fold (sum_counts (counts1 ++ counts2)). fold (sum_counts counts1). lia.
Qed.

Lemma process_topics_eq py_repr cfg E topics st :
  process_topics py_repr cfg E topics st
  = match topic_counts py_repr cfg E topics st with
    | (Ok counts, st') => (Ok (sum_counts counts), st')
    | (Raise e, st') => (Raise e, st')
    end.
Proof. unfold process_topics. rewrite for_each_topics. reflexivity. Qed.

(** X21.  Runs compose.  Processing a list of topics [topics1 ++ topics2]
    is processing [topics1], then [topics2] on the state that [topics1]
    left, and adding the two totals; an exception in either part is the
    exception of the whole, and after one in the first part the second is
    not started. *)
Theorem process_topics_app py_repr cfg E topics1 topics2 st :
  process_topics py_repr cfg E (topics1 ++ topics2) st
  = match process_topics py_repr cfg E topics1 st with
    | (Ok total1, st1) =>
        match process_topics py_repr cfg E topics2 st1 with
        | (Ok total2, st2) => (Ok (total1 + total2), st2)
        | (Raise e, st2) => (Raise e, st2)
        end
    | (Raise e, st1) => (Raise e, st1)
    end.
Proof.
  rewrite !process_topics_eq, topic_counts_app.
  destruct (topic_counts py_repr cfg E topics1 st) as [[c1|e] s1];
    [|reflexivity].
  rewrite process_topics_eq.
  destruct (topic_counts py_repr cfg E topics2 s1) as [[c2|e] s2];
    [|reflexivity].
  rewrite sum_counts_app. reflexivity.
Qed.

(** A server that gives every request the same answer, with a store whose
    statements, commits, rollbacks and connection each always fail with the
    exception given, or never fail. *)
Definition fixed_world (answer : result response)
    (on_execute on_commit on_rollback on_connect : option exn) : env :=
  {| requests_get := fun _ _ => answer;
     execute_fault := fun _ _ => on_execute;
     commit_fault := fun _ => on_commit;
     rollback_fault := fun _ => on_rollback;
     connect_fault := on_connect |}.

Lemma fixed_world_summary_replies xf cf rf conn :
  summary_replies_expected Scenario.cfg
    (fixed_world (Scenario.reply (VDict Scenario.body3)) xf cf rf conn).
Proof.
  intros tr patent_id.
  exists (field "summary_text" [("summary_text", VStr "Text A")]).
  split; [|exact I].
  apply (summary_first _ Scenario.body3 _ []); try reflexivity.
  eexists. split; [reflexivity|]. split; [cbn; lia|reflexivity].
Qed.

Lemma fixed_world_search xf cf rf conn topic_config st :
  search_patents Scenario.cfg
    (fixed_world (Scenario.reply (VDict Scenario.body3)) xf cf rf conn)
    (query topic_config) (max_patents topic_config) st
  = (Ok (VList [Scenario.hit "P1"; Scenario.hit "P2"; Scenario.hit "P3"]),
     sent st (search_request Scenario.cfg (query topic_config)
                (max_patents topic_config))).
Proof. rewrite search_patents_eq. reflexivity. Qed.

Lemma process_topic_record_is_stored_witness :
  let E := fixed_world (Scenario.reply (VDict Scenario.body3))
             None None None None in
  exists st' r,
    process_patent Scenario.no_repr Scenario.cfg E "solar" 0
      (Scenario.hit "P1") Scenario.empty_store = (Ok 1, st')
    /\ committed st' !! "P1" = Some r
    /\ r !! "summary_text" = Some (VStr "Text A")
    /\ r !! "search_topic" = Some (VStr "solar")
    /\ r !! "raw_data" = Some (Scenario.hit "P1").
Proof.
  intros E.
  destruct (process_topic_record_is_stored Scenario.no_repr Scenario.cfg E
              "solar" 0
              [("patent_id", VStr "P1"); ("patent_title", VStr "A title")]
              "P1" (VStr "Text A") Scenario.empty_store)
    as (st' & r & Hrun & Hl & _ & Hs & Ht & Hraw & _).
  - apply hit_well_shaped.
  - reflexivity.
  - apply (summary_first _ Scenario.body3
             [("summary_text", VStr "Text A")] []); try reflexivity.
    eexists. split; [reflexivity|]. split; [cbn; lia|reflexivity].
  - exact I.
  - reflexivity.
  - reflexivity.
  - exists st', r. split; [exact Hrun|]. split; [exact Hl|].
    split; [exact Hs|]. split; [exact Ht|]. apply Hraw. reflexivity.
Defined.

Lemma process_topic_rollback_failure_aborts_witness :
  let E := fixed_world (Scenario.reply (VDict Scenario.body3))
             (Some DatabaseError) None (Some DatabaseError) None in
  exists st' evs,
    process_topic Scenario.no_repr Scenario.cfg E Scenario.wind
      Scenario.empty_store = (Raise DatabaseError, st')
    /\ trace st'
       = trace (sent Scenario.empty_store
                  (search_request Scenario.cfg "wind turbine" 3)) ++ evs
    /\ count is_request evs = 1%nat.
Proof.
  intros E.
  destruct (process_topic_rollback_failure_aborts Scenario.no_repr
              Scenario.cfg E Scenario.wind Scenario.empty_store
              (Scenario.hit "P1") [Scenario.hit "P2"; Scenario.hit "P3"]
              (sent Scenario.empty_store
                 (search_request Scenario.cfg "wind turbine" 3))
              DatabaseError DatabaseError)
    as (st' & evs & Hrun & Htr & Hq & _).
  - apply fixed_world_summary_replies.
  - split; cbn; intros; simplify_eq; reflexivity.
  - apply (fixed_world_search _ _ _ _ Scenario.wind).
  - apply hit_well_shaped.
  - reflexivity.
  - reflexivity.
  - exists st', evs. split; [exact Hrun|]. split; [exact Htr|exact Hq].
Defined.

(** A body whose first hit has a [null] title. *)
Definition body_null_title : list (string * value) :=
  [("error", VBool false);
   ("patents", VList [VDict [("patent_id", VStr "P1");
                             ("patent_title", VNone)];
                      Scenario.hit "P2"])].

Lemma process_topic_null_title_aborts_witness :
  process_topic Scenario.no_repr Scenario.cfg
    (fixed_world (Scenario.reply (VDict body_null_title))
       None None None None)
    Scenario.solar Scenario.empty_store
  = (Raise TypeError,
     sent Scenario.empty_store (search_request Scenario.cfg "solar panel" 2)).
Proof.
  apply (process_topic_null_title_aborts _ _ _ _ _
           [("patent_id", VStr "P1"); ("patent_title", VNone)]
           [Scenario.hit "P2"] _ VNone).
  - rewrite search_patents_eq. reflexivity.
  - reflexivity.
  - exact I.
Defined.

Lemma main_exits_without_connection_witness :
  main Scenario.no_repr Scenario.cfg
    (fixed_world (Scenario.reply (VDict Scenario.body3))
       None None None (Some DatabaseError))
    [Scenario.solar; Scenario.wind] Scenario.empty_store
  = (Raise (SystemExit 1), Scenario.empty_store).
Proof.
  apply (main_exits_without_connection _ _ _ _ _ DatabaseError);
    reflexivity.
Defined.

Lemma main_propagates_topic_exception_witness :
  let E := fixed_world (Scenario.reply (VDict body_null_title))
             None None None None in
  main Scenario.no_repr Scenario.cfg E [Scenario.solar; Scenario.wind]
    Scenario.empty_store
  = (Raise TypeError,
     sent Scenario.empty_store (search_request Scenario.cfg "solar panel" 2)).
Proof.
  intros E.
  apply (main_propagates_topic_exception Scenario.no_repr Scenario.cfg E
           [Scenario.solar; Scenario.wind] Scenario.empty_store).
  - reflexivity.
  - vm_compute. reflexivity.
Defined.

(* ===================================================================== *)
(** ** The records of a topic, one by one *)
(* ===================================================================== *)

(** The parameters that [process_topic] hands to the statement for a hit:
    the normalized record, the summary fetched, the name of the topic. *)
Definition submitted (py_repr : value -> string) (topic_name : string)
    (kv : list (string * value))
    (assignees cpcs wipos inventors : list (list (string * value)))
    (summary : value) : row :=
  <["search_topic" := VStr topic_name]>
    (<["summary_text" := summary]>
       (normalized py_repr kv assignees cpcs wipos inventors)).

(** Whether the upsert of [new], sent in state [st0], goes through: the id
    under which the row is stored, or nothing when the statement or its
    commit is refused. *)
Definition upsert_goes_through (E : env) (st0 : state) (new : row)
  : option string :=
  match execute_fault E (trace st0) new with
  | Some _ => None
  | None =>
      match primary_key new with
      | Raise _ => None
      | Ok id =>
          match commit_fault E (trace st0 ++ [Executed new]) with
          | Some _ => None
          | None => Some id
          end
      end
  end.

(** The state in which a refused upsert stopped: after the statement, or
    after the commit. *)
Definition stopped_at (E : env) (st0 : state) (new : row) : state :=
  match execute_fault E (trace st0) new with
  | Some _ => refused st0 new
  | None =>
      match primary_key new with
      | Raise _ => refused st0 new
      | Ok id => logged (executed st0 id new) Commit
      end
  end.

(** Spec 4.5, step 2, in its words, for the hits in the order received:
    each hit is normalized, its summary is fetched and attached, and the
    upsert is attempted.  When it goes through, the row is committed and
    the count grows by one; when it is refused, the transaction of this one
    record is rolled back, the committed table stays as it was, and the
    next hit is taken.  [harvested hits n st n' st'] relates the count and
    state before the hits to the count and state after them. *)
Inductive harvested (py_repr : value -> string) (cfg : config) (E : env)
    (topic_name : string)
  : list value -> Z -> state -> Z -> state -> Prop :=
| harvested_none n st :
    harvested py_repr cfg E topic_name [] n st n st
| harvested_stored kv assignees cpcs wipos inventors v id hits n st n' st' :
    entries kv "assignees" assignees ->
    entries kv "cpc_current" cpcs ->
    entries kv "wipo" wipos ->
    entries kv "inventors" inventors ->
    summary_of (summary_reply cfg E (field "patent_id" kv) st) v ->
    upsert_goes_through E
      (sent st (summary_request cfg (field "patent_id" kv)))
      (submitted py_repr topic_name kv assignees cpcs wipos inventors v)
    = Some id ->
    harvested py_repr cfg E topic_name hits (n + 1)
      (all_committed
         (logged
            (executed (sent st (summary_request cfg (field "patent_id" kv)))
               id
               (submitted py_repr topic_name kv assignees cpcs wipos
                  inventors v))
            Commit))
      n' st' ->
    harvested py_repr cfg E topic_name (VDict kv :: hits) n st n' st'
| harvested_refused kv assignees cpcs wipos inventors v hits n st n' st' :
    entries kv "assignees" assignees ->
    entries kv "cpc_current" cpcs ->
    entries kv "wipo" wipos ->
    entries kv "inventors" inventors ->
    summary_of (summary_reply cfg E (field "patent_id" kv) st) v ->
    upsert_goes_through E
      (sent st (summary_request cfg (field "patent_id" kv)))
      (submitted py_repr topic_name kv assignees cpcs wipos inventors v)
    = None ->
    harvested py_repr cfg E topic_name hits n
      (all_dropped
         (logged
            (stopped_at E
               (sent st (summary_request cfg (field "patent_id" kv)))
               (submitted py_repr topic_name kv assignees cpcs wipos
                  inventors v))
            Rollback))
      n' st' ->
    harvested py_repr cfg E topic_name (VDict kv :: hits) n st n' st'.

Lemma submitted_columns py_repr topic_name kv assignees cpcs wipos inventors
    v c x :
  submitted py_repr topic_name kv assignees cpcs wipos inventors v !! c
  = Some x ->
  c ∈ columns.
Proof.
  unfold submitted, normalized. intros H.
  repeat (apply lookup_insert_Some in H;
          destruct H as [[<- _]|[_ H]]; [repeat constructor|]).
  rewrite lookup_empty in H. discriminate.
Qed.

Lemma bind_parameters_exact (parameters : row) :
  (forall c, c ∈ columns -> is_Some (parameters !! c)) ->
  (forall c x, parameters !! c = Some x -> c ∈ columns) ->
  bind_parameters parameters = Ok parameters.
Proof.
  intros Hall Honly. unfold bind_parameters.
  destruct (forallb _ columns) eqn:Hf.
  - f_equal. apply map_filter_id. intros c x Hc. exact (Honly c x Hc).
  - exfalso. apply not_true_iff_false in Hf. apply Hf.
    apply forallb_forall. intros c Hin. apply bool_decide_eq_true.
    apply Hall. apply list_elem_of_In. exact Hin.
Qed.

Lemma bind_parameters_submitted
    py_repr topic_name kv assignees cpcs wipos inventors v :
  bind_parameters
    (<["search_topic" := VStr topic_name]>
       (<["summary_text" := v]>
          (normalized py_repr kv assignees cpcs wipos inventors)))
  = Ok (submitted py_repr topic_name kv assignees cpcs wipos inventors v).
Proof.
  apply (bind_parameters_exact
           (submitted py_repr topic_name kv assignees cpcs wipos inventors v)).
  - intros c Hc. unfold submitted.
    destruct (decide (c = "search_topic")) as [->|Hne].
    + rewrite lookup_insert_eq. eauto.
    + rewrite lookup_insert_ne by congruence.
      apply normalized_complete; assumption.
  - apply submitted_columns.
Qed.

(** One record, when rollbacks go through: the loop body does what the
    spec says of it. *)
Lemma process_patent_harvests
    py_repr cfg E topic_name inserted_count kv
    assignees cpcs wipos inventors v st :
  storage_errors_only E ->
  entries kv "assignees" assignees ->
  entries kv "cpc_current" cpcs ->
  entries kv "wipo" wipos ->
  entries kv "inventors" inventors ->
  text_or_missing (assoc "patent_title" kv) ->
  summary_of (summary_reply cfg E (field "patent_id" kv) st) v ->
  text_or_none v ->
  let st0 := sent st (summary_request cfg (field "patent_id" kv)) in
  let new := submitted py_repr topic_name kv assignees cpcs wipos inventors v in
  process_patent py_repr cfg E topic_name inserted_count (VDict kv) st
  = match upsert_goes_through E st0 new with
    | Some id =>
        (Ok (inserted_count + 1),
         all_committed (logged (executed st0 id new) Commit))
    | None =>
        (Ok inserted_count,
         all_dropped (logged (stopped_at E st0 new) Rollback))
    end.
Proof.
  intros [Hx Hc Hr] Ha Hcp Hw Hi Ht Hv Htext st0 new.
  rewrite (process_patent_shaped py_repr cfg E topic_name inserted_count kv
             assignees cpcs wipos inventors v st Ha Hcp Hw Hi Ht Hv Htext).
  rewrite (try_upsert_eq E _ topic_name inserted_count _ new (conj Hx Hc)
             (normalized_complete _ _ _ _ _ _ _)
             (bind_parameters_submitted _ _ _ _ _ _ _ _)).
  fold st0. unfold upsert_goes_through, stopped_at, on_failure.
  destruct (execute_fault E (trace st0) new); [rewrite Hr; reflexivity|].
  destruct (primary_key new) as [id|e]; [|rewrite Hr; reflexivity].
  destruct (commit_fault E _); [rewrite Hr; reflexivity|reflexivity].
Qed.

Lemma for_each_harvested py_repr cfg E topic_name hits inserted_count st :
  storage_errors_only E ->
  summary_replies_expected cfg E ->
  Forall well_shaped_hit hits ->
  exists n st',
    for_each (process_patent py_repr cfg E topic_name) hits inserted_count st
    = (Ok n, st')
    /\ harvested py_repr cfg E topic_name hits inserted_count st n st'.
Proof.
  intros HE Hreplies Hhits. revert inserted_count st.
  induction Hhits as [|hit hits Hhit _ IH]; intros inserted_count st.
  - exists inserted_count, st. split; [reflexivity|constructor].
  - destruct Hhit as [kv assignees cpcs wipos inventors Ha Hcp Hw Hi Ht].
    destruct (Hreplies (trace st) (field "patent_id" kv)) as (v & Hv & Htext).
    pose proof (process_patent_harvests py_repr cfg E topic_name
                  inserted_count kv assignees cpcs wipos inventors v st
                  HE Ha Hcp Hw Hi Ht Hv Htext) as Hstep.
    cbv zeta in Hstep.
    destruct (upsert_goes_through E _ _) as [id|] eqn:Hgo.
    + destruct (IH (inserted_count + 1)
                  (all_committed
                     (logged
                        (executed
                           (sent st (summary_request cfg (field "patent_id" kv)))
                           id
                           (submitted py_repr topic_name kv assignees cpcs
                              wipos inventors v))
                        Commit)))
        as (n & st' & Hrun & Hh).
      exists n, st'. split.
      * cbn [for_each]. rewrite (bind_run _ _ _ _ _ Hstep). exact Hrun.
      * eapply harvested_stored; eauto.
    + destruct (IH inserted_count
                  (all_dropped
                     (logged
                        (stopped_at E
                           (sent st (summary_request cfg (field "patent_id" kv)))
                           (submitted py_repr topic_name kv assignees cpcs
                              wipos inventors v))
                        Rollback)))
        as (n & st' & Hrun & Hh).
      exists n, st'. split.
      * cbn [for_each]. rewrite (bind_run _ _ _ _ _ Hstep). exact Hrun.
      * eapply harvested_refused; eauto.
Qed.

Lemma process_topic_harvests py_repr cfg E topic_config st hits st1 :
  storage_errors_only E ->
  summary_replies_expected cfg E ->
  search_patents cfg E (query topic_config) (max_patents topic_config) st
  = (Ok (VList hits), st1) ->
  hits ≠ [] ->
  Forall well_shaped_hit hits ->
  exists n st' evs,
    process_topic py_repr cfg E topic_config st = (Ok n, st')
    /\ harvested py_repr cfg E (name topic_config) hits 0 st1 n st'
    /\ trace st' = trace st1 ++ evs
    /\ count is_request evs = length hits
    /\ count is_execute evs = length hits
    /\ n = Z.of_nat (length hits) - Z.of_nat (count is_rollback evs)
    /\ 0 <= n <= Z.of_nat (length hits)
    /\ working st' = committed st'.
Proof.
  intros HE Hreplies Hs Hne Hhits.
  destruct (process_topic_found py_repr cfg E topic_config st hits st1
              HE Hreplies Hs Hne Hhits) as (n & st' & evs & Hrun & Hrest).
  destruct (for_each_harvested py_repr cfg E (name topic_config) hits 0 st1
              HE Hreplies Hhits) as (n2 & st2 & Hrun2 & Hh).
  assert (Hsame : process_topic py_repr cfg E topic_config st = (Ok n2, st2)).
  { cbv beta zeta delta [process_topic]. rewrite (bind_run _ _ _ _ _ Hs).
    destruct hits as [|h hs]; [congruence|]. cbn [truthy negb iterate].
    rewrite (bind_lift _ (h :: hs)) by reflexivity.
    rewrite (bind_run _ _ _ _ _ Hrun2). reflexivity. }
  rewrite Hrun in Hsame. injection Hsame as <- <-.
  exists n, st', evs. split; [exact Hrun|]. split; [exact Hh|exact Hrest].
Qed.

(** C3 (amended).  Partial-failure isolation, when rollbacks go through.
    For a topic whose search returns a non-empty list of well-shaped hits,
    with summary replies of the expected shape and a store whose faults
    are errors of the upsert (the statement or its commit) while
    [conn.rollback()] itself succeeds, [process_topic] raises nothing and
    does with the hits, in order, what [harvested] says: a hit whose
    upsert goes through is committed and counted; a hit whose upsert is
    refused has its own transaction rolled back, leaves the committed
    table as it was, and the loop goes on with the next hit.  The value
    returned is the number of hits upserted, which is the number of hits
    less the number of rollbacks; every hit got its summary request and
    its statement, and nothing is left pending at the end. *)
Theorem process_topic_isolates_storage_errors
    py_repr cfg E topic_config st hits st1 :
  storage_errors_only E ->
  summary_replies_expected cfg E ->
  search_patents cfg E (query topic_config) (max_patents topic_config) st
  = (Ok (VList hits), st1) ->
  hits ≠ [] ->
  Forall well_shaped_hit hits ->
  exists n st' evs,
    process_topic py_repr cfg E topic_config st = (Ok n, st')
    /\ harvested py_repr cfg E (name topic_config) hits 0 st1 n st'
    /\ trace st' = trace st1 ++ evs
    /\ count is_request evs = length hits
    /\ count is_execute evs = length hits
    /\ n = Z.of_nat (length hits) - Z.of_nat (count is_rollback evs)
    /\ 0 <= n <= Z.of_nat (length hits)
    /\ working st' = committed st'.
Proof. apply process_topic_harvests. Qed.

(** Three hits, the store refusing the second: the first and the third are
    committed under the topic, the second is not, one rollback is made,
    and 2 is returned. *)
Lemma process_topic_isolates_storage_errors_witness :
  let E := Scenario.world (Scenario.reply (VDict Scenario.body3)) "P2" in
  let hits := [Scenario.hit "P1"; Scenario.hit "P2"; Scenario.hit "P3"] in
  let st1 := sent Scenario.empty_store
               (search_request Scenario.cfg "wind turbine" 3) in
  exists st' evs,
    process_topic Scenario.no_repr Scenario.cfg E Scenario.wind
      Scenario.empty_store = (Ok 2, st')
    /\ harvested Scenario.no_repr Scenario.cfg E "wind" hits 0 st1 2 st'
    /\ trace st' = trace st1 ++ evs
    /\ count is_execute evs = 3%nat
    /\ count is_rollback evs = 1%nat
    /\ committed st' !! "P1" ≫= (.!! "search_topic") = Some (VStr "wind")
    /\ committed st' !! "P2" = None
    /\ committed st' !! "P3" ≫= (.!! "search_topic") = Some (VStr "wind").
Proof.
  intros E hits st1.
  destruct (process_topic_isolates_storage_errors Scenario.no_repr
              Scenario.cfg E Scenario.wind Scenario.empty_store hits st1)
    as (n & st' & evs & Hrun & Hh & Htr & _ & Hx & Hn & _ & _).
  - apply world_storage_errors_only.
  - apply world_summary_replies.
  - rewrite search_patents_eq. reflexivity.
  - discriminate.
  - repeat constructor; apply hit_well_shaped.
  - assert (Hc : process_topic Scenario.no_repr Scenario.cfg E Scenario.wind
                   Scenario.empty_store
                 = (Ok 2, snd (process_topic Scenario.no_repr Scenario.cfg E
                                 Scenario.wind Scenario.empty_store))).
    { vm_compute. reflexivity. }
    assert (Hst : st' = snd (process_topic Scenario.no_repr Scenario.cfg E
                               Scenario.wind Scenario.empty_store)).
    { rewrite Hrun. reflexivity. }
    rewrite Hrun in Hc. injection Hc as Hn2.
    rewrite Hn2 in Hrun, Hh, Hn.
    exists st', evs.
    split; [exact Hrun|]. split; [exact Hh|]. split; [exact Htr|].
    split; [exact Hx|]. split; [cbn [length hits] in Hn; lia|].
    rewrite Hst.
    split; [vm_compute; reflexivity|].
    split; vm_compute; reflexivity.
Defined.

(** A store that has lost its connection after the first record: the
    statement for P2 is refused, and the rollback raises as well. *)
Definition lost_connection : env :=
  {| requests_get := fun _ _ => Scenario.reply (VDict Scenario.body3);
     execute_fault := fun _ r =>
       match r !! "patent_id" with
       | Some (VStr id) =>
           if String.eqb id "P2" then Some DatabaseError else None
       | _ => None
       end;
     commit_fault := fun _ => None;
     rollback_fault := fun _ => Some DatabaseError;
     connect_fault := None |}.

(** C3 as first stated fails: three well-shaped hits, expected replies,
    the upsert of the second hit raising a storage error that
    [except Exception] catches; the rollback in the handler raises, and
    [process_topic] raises instead of returning 2. *)
Lemma process_topic_isolates_storage_errors_counterexample :
  let hits := [Scenario.hit "P1"; Scenario.hit "P2"; Scenario.hit "P3"] in
  faults_caught lost_connection
  /\ summary_replies_expected Scenario.cfg lost_connection
  /\ search_patents Scenario.cfg lost_connection "wind turbine" 3
       Scenario.empty_store
     = (Ok (VList hits),
        sent Scenario.empty_store
          (search_request Scenario.cfg "wind turbine" 3))
  /\ Forall well_shaped_hit hits
  /\ fst (process_topic Scenario.no_repr Scenario.cfg lost_connection
            Scenario.wind Scenario.empty_store)
     = Raise DatabaseError.
Proof.
  intros hits. split; [|split; [|split; [|split]]].
  - split; cbn.
    + intros _ r e.
      destruct (r !! "patent_id") as [[| | | |id| |]|]; try discriminate.
      destruct (String.eqb id "P2"); [|discriminate].
      intros [= <-]. reflexivity.
    + discriminate.
  - intros tr patent_id.
    exists (field "summary_text" [("summary_text", VStr "Text A")]).
    split; [|exact I].
    apply (summary_first _ Scenario.body3 _ []); try reflexivity.
    eexists. split; [reflexivity|]. split; [cbn; lia|reflexivity].
  - rewrite search_patents_eq. reflexivity.
  - repeat constructor; apply hit_well_shaped.
  - vm_compute. reflexivity.
Qed.

Lemma harvested_without_commit py_repr cfg E topic_name hits n st n' st' :
  (forall tr, commit_fault E tr <> None) ->
  harvested py_repr cfg E topic_name hits n st n' st' ->
  n' = n
  /\ committed st' = committed st
  /\ (hits ≠ [] -> working st' = committed st).
Proof.
  intros Hcommit Hh.
  induction Hh as [n st
                  |kv assignees cpcs wipos inventors v id hits n st n' st'
                     _ _ _ _ _ Hgo _ _
                  |kv assignees cpcs wipos inventors v hits n st n' st'
                     _ _ _ _ _ Hgo Hh IH].
  - repeat split. congruence.
  - exfalso. unfold upsert_goes_through in Hgo.
    destruct (execute_fault E _ _); [discriminate|].
    destruct (primary_key _); [|discriminate].
    destruct (commit_fault E _) eqn:Hcf; [discriminate|].
    exact (Hcommit _ Hcf).
  - destruct IH as (-> & Hc & Hw).
    assert (Hstop : committed
                      (stopped_at E
                         (sent st (summary_request cfg (field "patent_id" kv)))
                         (submitted py_repr topic_name kv assignees cpcs
                            wipos inventors v))
                    = committed st).
    { unfold stopped_at. destruct (execute_fault E _ _); [reflexivity|].
      destruct (primary_key _); reflexivity. }
    cbn [all_dropped logged committed working] in Hc, Hw.
    split; [reflexivity|]. split; [congruence|].
    intros _. destruct hits as [|h hs].
    + inversion Hh; subst. cbn [all_dropped logged committed working].
      exact Hstop.
    + rewrite Hw by discriminate. exact Hstop.
Qed.

Lemma process_topic_never_committed py_repr cfg E topic_config st hits st1 :
  storage_errors_only E ->
  summary_replies_expected cfg E ->
  (forall tr, commit_fault E tr <> None) ->
  search_patents cfg E (query topic_config) (max_patents topic_config) st
  = (Ok (VList hits), st1) ->
  hits ≠ [] ->
  Forall well_shaped_hit hits ->
  exists st' evs,
    process_topic py_repr cfg E topic_config st = (Ok 0, st')
    /\ harvested py_repr cfg E (name topic_config) hits 0 st1 0 st'
    /\ trace st' = trace st1 ++ evs
    /\ count is_request evs = length hits
    /\ count is_execute evs = length hits
    /\ count is_rollback evs = length hits
    /\ committed st' = committed st
    /\ working st' = committed st.
Proof.
  intros HE Hreplies Hcommit Hs Hne Hhits.
  destruct (process_topic_harvests py_repr cfg E topic_config st hits st1
              HE Hreplies Hs Hne Hhits)
    as (n & st' & evs & Hrun & Hh & Htr & Hq & Hx & Hn & _ & _).
  destruct (harvested_without_commit _ _ _ _ _ _ _ _ _ Hcommit Hh)
    as (-> & Hc & Hw).
  pose proof (search_patents_state _ _ _ _ _ _ _ Hs) as Hst1.
  assert (Hc1 : committed st1 = committed st) by (rewrite Hst1; reflexivity).
  exists st', evs. split; [exact Hrun|]. split; [exact Hh|].
  split; [exact Htr|]. split; [exact Hq|]. split; [exact Hx|].
  split; [lia|]. split; [congruence|].
  rewrite (Hw Hne). exact Hc1.
Qed.

(** X18.  A store that commits nothing.  When every commit is refused (and
    rollbacks go through), [process_topic] on well-shaped hits still goes
    through all of them, in order and as [harvested] says: each hit gets
    its summary request, its statement and a rollback.  It returns 0, the
    committed table is exactly as before, and the open transaction is
    rolled back to it. *)
Theorem process_topic_counts_no_failed_commit
    py_repr cfg E topic_config st hits st1 :
  storage_errors_only E ->
  summary_replies_expected cfg E ->
  (forall tr, commit_fault E tr <> None) ->
  search_patents cfg E (query topic_config) (max_patents topic_config) st
  = (Ok (VList hits), st1) ->
  hits ≠ [] ->
  Forall well_shaped_hit hits ->
  exists st' evs,
    process_topic py_repr cfg E topic_config st = (Ok 0, st')
    /\ harvested py_repr cfg E (name topic_config) hits 0 st1 0 st'
    /\ trace st' = trace st1 ++ evs
    /\ count is_request evs = length hits
    /\ count is_execute evs = length hits
    /\ count is_rollback evs = length hits
    /\ committed st' = committed st
    /\ working st' = committed st.
Proof. apply process_topic_never_committed. Qed.

Lemma process_topic_counts_no_failed_commit_witness :
  let E := fixed_world (Scenario.reply (VDict Scenario.body3))
             None (Some DatabaseError) None None in
  exists st' evs,
    process_topic Scenario.no_repr Scenario.cfg E Scenario.wind
      store_committed_P1 = (Ok 0, st')
    /\ trace st'
       = trace (sent store_committed_P1
                  (search_request Scenario.cfg "wind turbine" 3)) ++ evs
    /\ count is_request evs = 3%nat
    /\ count is_execute evs = 3%nat
    /\ count is_rollback evs = 3%nat
    /\ committed st' = committed store_committed_P1
    /\ working st' = committed store_committed_P1.
Proof.
  intros E.
  destruct (process_topic_counts_no_failed_commit Scenario.no_repr
              Scenario.cfg E Scenario.wind store_committed_P1
              [Scenario.hit "P1"; Scenario.hit "P2"; Scenario.hit "P3"]
              (sent store_committed_P1
                 (search_request Scenario.cfg "wind turbine" 3)))
    as (st' & evs & Hrun & _ & Htr & Hq & Hx & Hb & Hc & Hw).
  - split; cbn; intros; simplify_eq; reflexivity.
  - apply fixed_world_summary_replies.
  - cbn. discriminate.
  - apply (fixed_world_search _ _ _ _ Scenario.wind).
  - discriminate.
  - repeat constructor; apply hit_well_shaped.
  - exists st', evs. repeat split; assumption.
Defined.
